(** * WebsocketTransport: a shallow embedding of lib/Interactor/WebsocketTransport.js

    The transport is a single JavaScript object ([this]) holding a handle
    to a [ws] socket.  Its methods are embedded as computations in a small
    state-and-exception monad over a [World]: the transport's own fields,
    the heap of socket objects created so far, and one ordered trace of
    everything observable from outside (emitted events, callback
    invocations, socket operations, diagnostic logs).  The socket and the
    emitter are libraries: first as stand-ins that take whatever they are
    given, then, in [WithLibrary], with the refusals of a [Library]. *)

From Stdlib Require Import ZArith String Ascii DecimalString Lia.
From stdpp Require Import base option list.

Set Warnings "-register-all".

Open Scope Z_scope.
Open Scope string_scope.
Open Scope list_scope.

(** ** JavaScript values *)

(** The fragment of JavaScript values the transport handles: JSON data,
    [undefined], functions (by identity) and [Error] objects (by message).
    Numbers are the integers plus [NaN]; objects are association lists in
    insertion order, keys unique and not array indices, first binding read
    by [get]. *)
Inductive Value : Type :=
  | VUndefined
  | VNull
  | VBool (b : bool)
  | VNum (z : Z)
  | VNaN
  | VStr (s : string)
  | VArr (items : list Value)
  | VObj (fields : list (string * Value))
  | VFun (id : nat)
  | VError (message : string).

(** [!!v] in JavaScript is [truthy v]. *)
Definition truthy (v : Value) : bool :=
  match v with
  | VUndefined | VNull | VNaN => false
  | VBool b => b
  | VNum z => negb (Z.eqb z 0)
  | VStr s => match s with EmptyString => false | String _ _ => true end
  | VArr _ | VObj _ | VFun _ | VError _ => true
  end.

(** [a || b] *)
Definition js_or (a b : Value) : Value := if truthy a then a else b.

(** [typeof v === 'function'] *)
Definition is_function (v : Value) : bool :=
  match v with VFun _ => true | _ => false end.

Fixpoint assoc (k : string) (fs : list (string * Value)) : Value :=
  match fs with
  | [] => VUndefined
  | (k', v) :: fs' => if String.eqb k k' then v else assoc k fs'
  end.

(** [delete o[k]] on the field list of an object. *)
Fixpoint remove_key (k : string) (fs : list (string * Value)) : list (string * Value) :=
  match fs with
  | [] => []
  | (k', v) :: fs' =>
      if String.eqb k k' then remove_key k fs' else (k', v) :: remove_key k fs'
  end.

(** [v.k] for a value that is neither [undefined] nor [null]: own data
    properties of objects and the [message] of an error.  The transport
    reads [version], [payload], [channel] and [message] only; built-in
    and inherited properties are left out. *)
Definition get (v : Value) (k : string) : Value :=
  match v with
  | VObj fs => assoc k fs
  | VError m => if String.eqb k "message" then VStr m else VUndefined
  | _ => VUndefined
  end.

(** ** JSON.stringify *)

Definition dquote : ascii := ascii_of_nat 34.
Definition backslash : ascii := ascii_of_nat 92.

Definition hex_digit (n : nat) : ascii :=
  ascii_of_nat (if Nat.ltb n 10 then 48 + n else 87 + n)%nat.

Definition escape_char (c : ascii) : string :=
  let n := nat_of_ascii c in
  if Nat.eqb n 34 then String backslash (String dquote EmptyString)
  else if Nat.eqb n 92 then String backslash (String backslash EmptyString)
  else if Nat.eqb n 8 then String backslash "b"
  else if Nat.eqb n 9 then String backslash "t"
  else if Nat.eqb n 10 then String backslash "n"
  else if Nat.eqb n 12 then String backslash "f"
  else if Nat.eqb n 13 then String backslash "r"
  else if Nat.ltb n 32 then
    String backslash
      (String.append "u00"
         (String (hex_digit (n / 16)) (String (hex_digit (n mod 16)) EmptyString)))
  else String c EmptyString.

Fixpoint escape (s : string) : string :=
  match s with
  | EmptyString => EmptyString
  | String c s' => String.append (escape_char c) (escape s')
  end.

Definition quote (s : string) : string :=
  String dquote (String.append (escape s) (String dquote EmptyString)).

(** Integers print in plain decimal (JavaScript does so below 10^21). *)
Definition number_to_string (z : Z) : string :=
  NilZero.string_of_int (Z.to_int z).

Fixpoint join (sep : string) (l : list string) : string :=
  match l with
  | [] => EmptyString
  | [x] => x
  | x :: l' => String.append x (String.append sep (join sep l'))
  end.

(** [None] stands for the [undefined] that [JSON.stringify] returns on
    [undefined] and on functions.  Inside an array such a value prints as
    [null]; inside an object its key is left out. *)
Fixpoint stringify (v : Value) : option string :=
  match v with
  | VUndefined | VFun _ => None
  | VNull | VNaN => Some "null"
  | VBool true => Some "true"
  | VBool false => Some "false"
  | VNum z => Some (number_to_string z)
  | VStr s => Some (quote s)
  | VError _ => Some "{}"
  | VArr items =>
      Some (String.append "["
             (String.append
                (join "," (List.map (fun x => default "null" (stringify x)) items))
                "]"))
  | VObj fields =>
      Some (String.append "{"
             (String.append
                (join ","
                   (omap (fun kv =>
                            match stringify (snd kv) with
                            | Some s => Some (String.append (quote (fst kv)) (String.append ":" s))
                            | None => None
                            end) fields))
                "}"))
  end.

Definition JSON_stringify (v : Value) : Value :=
  match stringify v with
  | Some s => VStr s
  | None => VUndefined
  end.

(** ** External collaborators *)

(** What the file requires but does not define: the protocol constants of
    [constants.js], the cipher of [Utility.js] and the daemon's metadata
    provider.  They are parameters of the whole development. *)
Record Env : Type := {
  PROTOCOL_VERSION : Value;                 (* cst.PROTOCOL_VERSION *)
  COMPRESS_PROTOCOL : Value;                (* cst.COMPRESS_PROTOCOL *)
  cipherMessage : Value -> Value -> Value;  (* Utility.Cipher.cipherMessage(msg, key) *)
  getSystemMetadata : Value                 (* this._daemon.getSystemMetadata() *)
}.

(** [this.opts], as far as the transport reads it. *)
Record Opts : Type := {
  SECRET_KEY : Value;
  PUBLIC_KEY : Value;
  MACHINE_NAME : Value;
  PM2_VERSION : Value
}.

(** ** Sockets *)

(** The four listeners [connect] can register: the caller's callback and
    the three methods bound to the transport. *)
Inductive Handler : Type :=
  | HUser (f : nat)
  | H_onClose
  | H_onError
  | H_onMessage.

Record Listener : Type := {
  l_id : nat;
  l_event : string;
  l_once : bool;
  l_handler : Handler
}.

Definition CONNECTING : nat := 0.
Definition OPEN : nat := 1.
Definition CLOSING : nat := 2.
Definition CLOSED : nat := 3.

(** A [ws] socket object as the transport sees it: the constructor's
    arguments, the ready state and the listener table.  [registered]
    counts registrations and gives each listener its identity. *)
Record WebSocket : Type := {
  ws_url : Value;
  perMessageDeflate : bool;
  headers : list (string * Value);
  readyState : nat;
  listeners : list Listener;
  registered : nat
}.

Definition set_readyState (rs : nat) (s : WebSocket) : WebSocket :=
  {| ws_url := ws_url s; perMessageDeflate := perMessageDeflate s;
     headers := headers s; readyState := rs;
     listeners := listeners s; registered := registered s |}.

Definition push_listener (ev : string) (once : bool) (hd : Handler) (s : WebSocket) : WebSocket :=
  {| ws_url := ws_url s; perMessageDeflate := perMessageDeflate s;
     headers := headers s; readyState := readyState s;
     listeners := listeners s ++
       [ {| l_id := registered s; l_event := ev; l_once := once; l_handler := hd |} ];
     registered := S (registered s) |}.

Definition drop_listener (id : nat) (s : WebSocket) : WebSocket :=
  {| ws_url := ws_url s; perMessageDeflate := perMessageDeflate s;
     headers := headers s; readyState := readyState s;
     listeners := List.filter (fun l => negb (Nat.eqb (l_id l) id)) (listeners s);
     registered := registered s |}.

(** What a socket does to its own ready state on [close(code, reason)]. *)
Definition closing_state (rs : nat) : nat :=
  if Nat.eqb rs OPEN then CLOSING
  else if Nat.eqb rs CONNECTING then CLOSED
  else rs.

(** ** The world *)

Inductive Action : Type :=
  | ALog (fmt : string) (args : list Value)                (* log(fmt, ...args) *)
  | AEmit (event : Value) (args : list Value)              (* this.emit(event, ...args) *)
  | ACall (f : nat) (args : list Value)                    (* the caller's callback runs *)
  | AWsNew (h : nat) (url : Value)                         (* new WebSocket(url, ...) *)
  | AWsSend (h : nat) (data : Value) (compress : Value)    (* ws.send(data, {compress}, fn) *)
  | AWsClose (h : nat) (code : Z) (reason : Value)         (* ws.close(code, reason) *)
  | AWsPing (h : nat) (data : Value) (mask dontFail : bool). (* ws.ping(data, mask, dontFail) *)

Record World : Type := {
  opts : Opts;               (* this.opts *)
  _ws : option nat;          (* this._ws: null, or a handle into [sockets] *)
  _host : Value;             (* this._host *)
  sockets : list WebSocket;  (* every socket object created so far *)
  trace : list Action        (* what happened, oldest first *)
}.

Definition set_ws (h : option nat) (w : World) : World :=
  {| opts := opts w; _ws := h; _host := _host w; sockets := sockets w; trace := trace w |}.

Definition set_host (u : Value) (w : World) : World :=
  {| opts := opts w; _ws := _ws w; _host := u; sockets := sockets w; trace := trace w |}.

Definition set_sockets (ss : list WebSocket) (w : World) : World :=
  {| opts := opts w; _ws := _ws w; _host := _host w; sockets := ss; trace := trace w |}.

Definition add_action (a : Action) (w : World) : World :=
  {| opts := opts w; _ws := _ws w; _host := _host w; sockets := sockets w;
     trace := trace w ++ [a] |}.

(** The constructor: [this._ws = null], [_host] not yet assigned. *)
Definition WebsocketTransport (o : Opts) : World :=
  {| opts := o; _ws := None; _host := VUndefined; sockets := []; trace := [] |}.

(** ** Computations: state and exceptions *)

Inductive Res (A : Type) : Type :=
  | Ok (a : A) (w : World)
  | Throw (e : Value) (w : World).
Arguments Ok {A} a w.
Arguments Throw {A} e w.

Definition world_of {A : Type} (r : Res A) : World :=
  match r with Ok _ w => w | Throw _ w => w end.

Definition M (A : Type) : Type := World -> Res A.

Definition ret {A : Type} (a : A) : M A := fun w => Ok a w.

Definition bind {A B : Type} (m : M A) (k : A -> M B) : M B :=
  fun w => match m w with
           | Ok a w' => k a w'
           | Throw e w' => Throw e w'
           end.

Definition throw {A : Type} (e : Value) : M A := fun w => Throw e w.

(** [try { m } catch (err) { handler err }] *)
Definition try_catch {A : Type} (m : M A) (handler : Value -> M A) : M A :=
  fun w => match m w with
           | Ok a w' => Ok a w'
           | Throw e w' => handler e w'
           end.

Notation "'let*' x ':=' m 'in' k" := (bind m (fun x => k))
  (at level 10, x name, m at level 100, k at level 200).
Notation "m ';;;' k" := (bind m (fun _ => k))
  (at level 100, k at level 200, right associativity).

Definition record (a : Action) : M unit := fun w => Ok tt (add_action a w).

Definition update_socket (h : nat) (f : WebSocket -> WebSocket) : M unit :=
  fun w => Ok tt (set_sockets (alter f h (sockets w)) w).

(** Dereferencing [this._ws] to call a method on it throws a [TypeError]
    when the field is [null]. *)
Definition this_ws : M nat :=
  fun w => match _ws w with
           | Some h => Ok h w
           | None => Throw (VError "Cannot read properties of null") w
           end.

(** ** The socket primitive

    A recording stand-in for the [ws] client: each operation is appended
    to the trace, and the ready state moves as the library moves it. *)

(** [new WebSocket(url, { perMessageDeflate, headers })], for an address
    the library accepts; [WithLibrary.new_WebSocket] adds the refusal. *)
Definition new_WebSocket (url : Value) (deflate : bool) (hdrs : list (string * Value)) : M nat :=
  fun w =>
    let h := length (sockets w) in
    let s := {| ws_url := url; perMessageDeflate := deflate; headers := hdrs;
                readyState := CONNECTING; listeners := []; registered := 0 |} in
    Ok h (add_action (AWsNew h url) (set_sockets (sockets w ++ [s]) w)).

(** [ws.on(ev, fn)] for one of the transport's bound methods. *)
Definition ws_on (h : nat) (ev : string) (hd : Handler) : M unit :=
  update_socket h (push_listener ev false hd).

(** [ws.once(ev, cb)]: Node's emitter refuses a listener that is not a
    function. *)
Definition ws_once (h : nat) (ev : string) (cb : Value) : M unit :=
  match cb with
  | VFun f => update_socket h (push_listener ev true (HUser f))
  | _ => throw (VError "listener must be a function")
  end.

(** [ws.close(code, reason)], for a code the library accepts;
    [WithLibrary.ws_close] adds the refusal. *)
Definition ws_close (h : nat) (code : Z) (reason : Value) : M unit :=
  record (AWsClose h code reason) ;;;
  update_socket h (fun s => set_readyState (closing_state (readyState s)) s).

(** [ws.send(data, { compress }, fn)]; the completion function [fn] of
    the transport only prints a failed write. *)
Definition ws_send (h : nat) (data : Value) (compress : Value) : M unit :=
  record (AWsSend h data compress).

(** [ws.ping(data, mask, dontFailWhenClosed)]: on a socket that is not
    open the library throws unless told not to fail. *)
Definition ws_ping (h : nat) (data : Value) (mask dontFail : bool) : M unit :=
  fun w =>
    match sockets w !! h with
    | Some s =>
        if Nat.eqb (readyState s) OPEN then record (AWsPing h data mask dontFail) w
        else if dontFail then Ok tt w
        else Throw (VError "not opened") w
    | None => Throw (VError "not opened") w
    end.

(** ** The transport *)

Definition log (fmt : string) (args : list Value) : M unit := record (ALog fmt args).

(** [this.emit(event, ...args)], inherited from the emitter: the event
    is handed to the emitter, which is not part of this file.  This is
    the emitter taking the event; [WithLibrary.emit] adds the emitter
    throwing it back. *)
Definition emit (event : Value) (args : list Value) : M unit := record (AEmit event args).

(** [isConnected]: [this._ws && this._ws.readyState === 1] *)
Definition isConnected (w : World) : bool :=
  match _ws w with
  | None => false
  | Some h =>
      match sockets w !! h with
      | Some s => Nat.eqb (readyState s) 1
      | None => false
      end
  end.

(** Reads and writes of the transport's own fields. *)
Definition this_opts : M Opts := fun w => Ok (opts w) w.
Definition this_host : M Value := fun w => Ok (_host w) w.
Definition this_isConnected : M bool := fun w => Ok (isConnected w) w.
Definition assign_host (u : Value) : M unit := fun w => Ok tt (set_host u w).
Definition assign_ws (h : option nat) : M unit := fun w => Ok tt (set_ws h w).

Section Transport.

Variable E : Env.

Definition connect (url cb : Value) : M unit :=
  let* o := this_opts in
  let data := getSystemMetadata E in
  let data := cipherMessage E (JSON_stringify data) (SECRET_KEY o) in
  assign_host url ;;;
  (let* h := new_WebSocket url false
               [ ("X-KM-PUBLIC", PUBLIC_KEY o);
                 ("X-KM-DATA", data);
                 ("X-KM-SERVER", MACHINE_NAME o);
                 ("X-PM2-VERSION", PM2_VERSION o) ] in
   assign_ws (Some h)) ;;;
  (let* h := this_ws in ws_once h "error" cb) ;;;
  (let* h := this_ws in ws_once h "open" cb) ;;;
  (let* h := this_ws in ws_on h "close" H_onClose) ;;;
  (let* h := this_ws in ws_on h "error" H_onError) ;;;
  (let* h := this_ws in ws_on h "message" H_onMessage).

Definition disconnect : M unit :=
  let* connected := this_isConnected in
  if connected
  then (let* h := this_ws in ws_close h 1000 (VStr "Disconnecting"))
  else ret tt.

Definition reconnect (url cb : Value) : M unit :=
  let* host := this_host in
  let cb := if is_function url then url else cb in
  let url := if is_function url then host else url in
  disconnect ;;;
  connect url cb.

Definition _onClose (code reason : Value) : M unit :=
  emit (VStr "close") [code; reason].

(** [err.message] is only read on the connected branch; reading it off
    [undefined] or [null] throws. *)
Definition _onError (err : Value) : M unit :=
  (let* connected := this_isConnected in
   if connected
   then (let* h := this_ws in
         match err with
         | VUndefined | VNull => throw (VError "Cannot read properties of undefined")
         | _ => ws_close h 400 (get err "message")
         end)
   else ret tt) ;;;
  emit (VStr "error") [err].

Definition _onMessage (data flags : Value) : M unit :=
  if negb (truthy data) || negb (truthy (get data "version"))
     || negb (truthy (get data "payload")) || negb (truthy (get data "channel"))
  then log "Received message without all necessary fields" []
  else emit (get data "channel") [get data "payload"].

Definition ping (data : Value) : M unit :=
  log "Sending ping request to remote" [] ;;;
  try_catch
    (let* h := this_ws in ws_ping h (JSON_stringify data) true false)
    (fun err => emit (VStr "error") [err]).

Definition send (channel data : Value) : M unit :=
  if negb (truthy channel) || negb (truthy data)
  then log "Trying to send message without all necessary fields" []
  else
    let* connected := this_isConnected in
    if negb connected
    then log "Trying to send data while not connected" []
    else
      log "Sending packet over for channel %s" [channel] ;;;
      let packet := VObj [ ("version", PROTOCOL_VERSION E);
                           ("payload", data);
                           ("channel", channel) ] in
      let* h := this_ws in
      ws_send h (JSON_stringify packet) (js_or (COMPRESS_PROTOCOL E) (VBool false)).

(** ** Signals from a socket *)

Inductive Signal : Type :=
  | SigOpen
  | SigError (err : Value)
  | SigClose (code reason : Value)
  | SigMessage (data flags : Value).

Definition signal_event (s : Signal) : string :=
  match s with
  | SigOpen => "open"
  | SigError _ => "error"
  | SigClose _ _ => "close"
  | SigMessage _ _ => "message"
  end.

Definition signal_args (s : Signal) : list Value :=
  match s with
  | SigOpen => []
  | SigError err => [err]
  | SigClose code reason => [code; reason]
  | SigMessage data flags => [data; flags]
  end.

(** The socket sets its ready state before it tells its listeners.  An
    error leaves it alone here; [WithLibrary.signal_state] lets the
    library move a failing socket first. *)
Definition signal_state (s : Signal) (rs : nat) : nat :=
  match s with
  | SigOpen => OPEN
  | SigClose _ _ => CLOSED
  | _ => rs
  end.

Definition arg (n : nat) (args : list Value) : Value := nth n args VUndefined.

Definition invoke (hd : Handler) (args : list Value) : M unit :=
  match hd with
  | HUser f => record (ACall f args)
  | H_onClose => _onClose (arg 0 args) (arg 1 args)
  | H_onError => _onError (arg 0 args)
  | H_onMessage => _onMessage (arg 0 args) (arg 1 args)
  end.

(** Listeners run in registration order; a [once] listener leaves the
    table just before it runs. *)
Fixpoint run_listeners (h : nat) (ls : list Listener) (args : list Value) : M unit :=
  match ls with
  | [] => ret tt
  | l :: ls' =>
      (if l_once l then update_socket h (drop_listener (l_id l)) else ret tt) ;;;
      invoke (l_handler l) args ;;;
      run_listeners h ls' args
  end.

Definition deliver (h : nat) (s : Signal) : M unit :=
  fun w =>
    match sockets w !! h with
    | None => Ok tt w
    | Some sk =>
        (update_socket h (set_readyState (signal_state s (readyState sk))) ;;;
         run_listeners h
           (List.filter (fun l => String.eqb (l_event l) (signal_event s)) (listeners sk))
           (signal_args s)) w
    end.

(** ** Runs: API calls interleaved with socket signals *)

Inductive Op : Type :=
  | OpConnect (url cb : Value)
  | OpDisconnect
  | OpReconnect (url cb : Value)
  | OpPing (data : Value)
  | OpSend (channel data : Value)
  | OpSignal (h : nat) (s : Signal).

Definition run_op (o : Op) : M unit :=
  match o with
  | OpConnect url cb => connect url cb
  | OpDisconnect => disconnect
  | OpReconnect url cb => reconnect url cb
  | OpPing data => ping data
  | OpSend channel data => send channel data
  | OpSignal h s => deliver h s
  end.

(** Each step is a separate turn of the event loop: an exception ends
    its own turn only. *)
Fixpoint run (ops : list Op) (w : World) : World :=
  match ops with
  | [] => w
  | o :: ops' => run ops' (world_of (run_op o w))
  end.

End Transport.

(** ** A concrete setting for examples *)

Definition demo_env : Env :=
  {| PROTOCOL_VERSION := VNum 1;
     COMPRESS_PROTOCOL := VBool false;
     cipherMessage := fun msg key => VArr [VStr "ciphered"; msg; key];
     getSystemMetadata := VObj [("hostname", VStr "box"); ("cpus", VNum 4)] |}.

Definition demo_opts : Opts :=
  {| SECRET_KEY := VStr "secret";
     PUBLIC_KEY := VStr "public";
     MACHINE_NAME := VStr "machine";
     PM2_VERSION := VStr "2.4.0" |}.

Definition demo_url : Value := VStr "ws://host/x".

(** A fresh transport. *)
Definition w_fresh : World := WebsocketTransport demo_opts.

(** After [connect(url, cb)] with the callback [VFun 7]. *)
Definition w_connecting : World :=
  run demo_env [OpConnect demo_url (VFun 7)] w_fresh.

(** After the socket has opened. *)
Definition w_open : World :=
  run demo_env [OpSignal 0 SigOpen] w_connecting.

(** After [disconnect()] and the socket's close signal. *)
Definition w_closed : World :=
  run demo_env [OpDisconnect; OpSignal 0 (SigClose (VNum 1000) (VStr "Disconnecting"))] w_open.

(** Observations on a trace. *)
Definition calls_of (f : nat) (t : list Action) : list (list Value) :=
  omap (fun a => match a with
                 | ACall g args => if Nat.eqb f g then Some args else None
                 | _ => None
                 end) t.

Definition writes_of (t : list Action) : list (nat * Value * Value) :=
  omap (fun a => match a with
                 | AWsSend h data compress => Some (h, data, compress)
                 | _ => None
                 end) t.

Definition events_of (t : list Action) : list (Value * list Value) :=
  omap (fun a => match a with
                 | AEmit ev args => Some (ev, args)
                 | _ => None
                 end) t.

Definition socket_ops_of (t : list Action) : list Action :=
  List.filter (fun a => match a with
                        | AWsNew _ _ | AWsSend _ _ _ | AWsClose _ _ _ | AWsPing _ _ _ _ => true
                        | _ => false
                        end) t.

(** [k in data]: the key is present, whatever its value. *)
Definition has_field (k : string) (data : Value) : bool :=
  match data with
  | VObj fs => existsb (fun kv => String.eqb k (fst kv)) fs
  | _ => false
  end.

(** The envelope test of [_onMessage], read positively: the message and
    its three fields are all truthy. *)
Definition valid_envelope (data : Value) : bool :=
  truthy data && truthy (get data "version")
  && truthy (get data "payload") && truthy (get data "channel").

(** [v == null], the values a property cannot be read from. *)
Definition is_nullish (v : Value) : bool :=
  match v with VUndefined | VNull => true | _ => false end.

(** An inbound message carrying all three keys, with payload [0]. *)
Definition msg_zero_payload : Value :=
  VObj [("version", VNum 1); ("channel", VStr "metrics"); ("payload", VNum 0)].

(** The message of the specification's receive scenario. *)
Definition msg_metrics : Value :=
  VObj [("version", VNum 1); ("channel", VStr "metrics");
        ("payload", VObj [("cpu", VNum 10)])].

(** The listener table after a [connect] whose callback is the function
    [f]: the two one-shot registrations of the callback, then the three
    bound methods. *)
Definition connect_listeners (f : nat) : list Listener :=
  [ {| l_id := 0; l_event := "error"; l_once := true; l_handler := HUser f |};
    {| l_id := 1; l_event := "open"; l_once := true; l_handler := HUser f |};
    {| l_id := 2; l_event := "close"; l_once := false; l_handler := H_onClose |};
    {| l_id := 3; l_event := "error"; l_once := false; l_handler := H_onError |};
    {| l_id := 4; l_event := "message"; l_once := false; l_handler := H_onMessage |} ]%nat.

(** The world [connect] leaves behind, with [ls] the listeners it got to
    register (see [connect_function] and [connect_not_function]). *)
Definition connected_world (E : Env) (url : Value) (ls : list Listener) (w : World) : World :=
  {| opts := opts w;
     _ws := Some (length (sockets w));
     _host := url;
     sockets := sockets w ++
       [ {| ws_url := url;
            perMessageDeflate := false;
            headers :=
              [ ("X-KM-PUBLIC", PUBLIC_KEY (opts w));
                ("X-KM-DATA",
                 cipherMessage E (JSON_stringify (getSystemMetadata E)) (SECRET_KEY (opts w)));
                ("X-KM-SERVER", MACHINE_NAME (opts w));
                ("X-PM2-VERSION", PM2_VERSION (opts w)) ];
            readyState := CONNECTING;
            listeners := ls;
            registered := length ls |} ];
     trace := trace w ++ [AWsNew (length (sockets w)) url] |}.

(** A computation keeps the handle when, however it ends, [this._ws] is
    what it was. *)
Definition keeps_handle {A : Type} (m : M A) : Prop :=
  forall w, _ws (world_of (m w)) = _ws w.

(** ** Wiring of a socket *)

(** The listener table of a socket made by [connect] with the callback
    [f], after its one-shot [error] registration has fired ([err_fired])
    and after its one-shot [open] registration has ([open_fired]). *)
Definition listeners_after (f : nat) (err_fired open_fired : bool) : list Listener :=
  List.filter
    (fun l => negb ((err_fired && Nat.eqb (l_id l) 0) || (open_fired && Nat.eqb (l_id l) 1)))
    (connect_listeners f).

Definition wired (f : nat) (err_fired open_fired : bool) (sk : WebSocket) : Prop :=
  listeners sk = listeners_after f err_fired open_fired.


(** What a socket was constructed with. *)
Definition socket_identity (s : WebSocket) : Value * bool * list (string * Value) :=
  (ws_url s, perMessageDeflate s, headers s).

(** Everything in the world but the handle, the ready states, the
    listener tables and the trace. *)
Definition wiring (w : World) : Value * Opts * list (Value * bool * list (string * Value)) :=
  (_host w, opts w, List.map socket_identity (sockets w)).

Definition listener_tables (w : World) : list (list Listener) :=
  List.map listeners (sockets w).

(** A computation preserves an observation of the world when, however it
    ends, the observation is what it was. *)
Definition preserves {A B : Type} (proj : World -> B) (m : M A) : Prop :=
  forall w, proj (world_of (m w)) = proj w.

(** The events one inbound message gives rise to. *)
Definition dispatch_of (data : Value) : list (Value * list Value) :=
  if valid_envelope data then [(get data "channel", [get data "payload"])] else [].

Definition opens_socket (op : Op) : bool :=
  match op with
  | OpConnect _ _ | OpReconnect _ _ => true
  | _ => false
  end.

(** Two connects in a row, both sockets open: socket 0 is left behind,
    socket 1 is the current one. *)
Definition w_superseded : World :=
  run demo_env
    [ OpConnect demo_url (VFun 7); OpSignal 0 SigOpen;
      OpConnect (VStr "ws://host/y") (VFun 8); OpSignal 1 SigOpen ] w_fresh.



(** ** The libraries' own failures

    The stand-ins above never refuse anything.  The libraries do: the
    socket constructor refuses an address it cannot use, [close] refuses
    a code that is not a close code, the inherited [emit] throws an event
    it will not deliver, and a socket that fails while open is already
    closing when it tells its listeners.  A [Library] says when. *)
Record Library : Type := {
  (* what [new WebSocket(url, ...)] throws, if it refuses the address *)
  address_error : Value -> option Value;
  (* what [ws.close(code, ...)] throws, if it refuses the code *)
  close_error : Z -> option Value;
  (* what [this.emit(event, ...args)] throws, with the listeners the
     owner has registered at that time *)
  emit_error : Value -> list Value -> option Value;
  (* the ready state in which a socket emits [error], from its state before *)
  error_state : nat -> nat
}.

(** The library of the stand-ins: nothing is refused. *)
Definition permissive : Library :=
  {| address_error := fun _ => None;
     close_error := fun _ => None;
     emit_error := fun _ _ => None;
     error_state := fun rs => rs |}.

(** The close codes [ws] lets through. *)
Definition valid_close_code (code : Z) : bool :=
  (Z.leb 1000 code && Z.leb code 1011
   && negb (Z.eqb code 1004) && negb (Z.eqb code 1005) && negb (Z.eqb code 1006))
  || (Z.leb 3000 code && Z.leb code 4999).

(** [ws] and the emitter as the transport meets them; [error_listener]
    says whether the owner listens for [error].  An address that is not a
    string is refused, a close code outside the valid ranges is refused,
    an [error] event nobody listens for is thrown back (the error itself
    when it is one), an event name that is neither a string nor an array
    cannot be split into its namespace, and a socket failing while open
    is closing by the time it emits [error].  The texts of the messages
    stand for the libraries' own. *)
Definition ws_lib (error_listener : bool) : Library :=
  {| address_error := fun url =>
       match url with
       | VStr _ => None
       | _ => Some (VError "TypeError: the address must be a string")
       end;
     close_error := fun code =>
       if valid_close_code code then None
       else Some (VError "first argument must be a valid error code number");
     emit_error := fun event args =>
       match event with
       | VStr name =>
           if String.eqb name "error" && negb error_listener
           then Some (match args with
                      | VError m :: _ => VError m
                      | _ => VError "Uncaught, unspecified 'error' event."
                      end)
           else None
       | VArr _ => None
       | _ => Some (VError "TypeError: the event name cannot be split")
       end;
     error_state := fun rs => if Nat.eqb rs OPEN then CLOSING else rs |}.

Module WithLibrary.

Section Transport.

Variable L : Library.
Variable E : Env.

(** [new WebSocket(url, ...)], which may refuse the address; nothing is
    created then. *)
Definition new_WebSocket (url : Value) (deflate : bool) (hdrs : list (string * Value)) : M nat :=
  match address_error L url with
  | None => new_WebSocket url deflate hdrs
  | Some e => throw e
  end.

(** [ws.close(code, reason)]: the socket is marked closing before the
    code is looked at. *)
Definition ws_close (h : nat) (code : Z) (reason : Value) : M unit :=
  match close_error L code with
  | None => ws_close h code reason
  | Some e => ws_close h code reason ;;; throw e
  end.

(** [this.emit(event, ...args)]: the event is handed to the emitter, which
    may throw. *)
Definition emit (event : Value) (args : list Value) : M unit :=
  match emit_error L event args with
  | None => emit event args
  | Some e => emit event args ;;; throw e
  end.

Definition connect (url cb : Value) : M unit :=
  let* o := this_opts in
  let data := getSystemMetadata E in
  let data := cipherMessage E (JSON_stringify data) (SECRET_KEY o) in
  assign_host url ;;;
  (let* h := new_WebSocket url false
               [ ("X-KM-PUBLIC", PUBLIC_KEY o);
                 ("X-KM-DATA", data);
                 ("X-KM-SERVER", MACHINE_NAME o);
                 ("X-PM2-VERSION", PM2_VERSION o) ] in
   assign_ws (Some h)) ;;;
  (let* h := this_ws in ws_once h "error" cb) ;;;
  (let* h := this_ws in ws_once h "open" cb) ;;;
  (let* h := this_ws in ws_on h "close" H_onClose) ;;;
  (let* h := this_ws in ws_on h "error" H_onError) ;;;
  (let* h := this_ws in ws_on h "message" H_onMessage).

Definition disconnect : M unit :=
  let* connected := this_isConnected in
  if connected
  then (let* h := this_ws in ws_close h 1000 (VStr "Disconnecting"))
  else ret tt.

Definition reconnect (url cb : Value) : M unit :=
  let* host := this_host in
  let cb := if is_function url then url else cb in
  let url := if is_function url then host else url in
  disconnect ;;;
  connect url cb.

Definition _onClose (code reason : Value) : M unit :=
  emit (VStr "close") [code; reason].

Definition _onError (err : Value) : M unit :=
  (let* connected := this_isConnected in
   if connected
   then (let* h := this_ws in
         match err with
         | VUndefined | VNull => throw (VError "Cannot read properties of undefined")
         | _ => ws_close h 400 (get err "message")
         end)
   else ret tt) ;;;
  emit (VStr "error") [err].

Definition _onMessage (data flags : Value) : M unit :=
  if negb (truthy data) || negb (truthy (get data "version"))
     || negb (truthy (get data "payload")) || negb (truthy (get data "channel"))
  then log "Received message without all necessary fields" []
  else emit (get data "channel") [get data "payload"].

Definition ping (data : Value) : M unit :=
  log "Sending ping request to remote" [] ;;;
  try_catch
    (let* h := this_ws in ws_ping h (JSON_stringify data) true false)
    (fun err => emit (VStr "error") [err]).

(** A socket that fails is in [error_state] when it emits [error]. *)
Definition signal_state (s : Signal) (rs : nat) : nat :=
  match s with
  | SigError _ => error_state L rs
  | _ => signal_state s rs
  end.

Definition invoke (hd : Handler) (args : list Value) : M unit :=
  match hd with
  | HUser f => record (ACall f args)
  | H_onClose => _onClose (arg 0 args) (arg 1 args)
  | H_onError => _onError (arg 0 args)
  | H_onMessage => _onMessage (arg 0 args) (arg 1 args)
  end.

Fixpoint run_listeners (h : nat) (ls : list Listener) (args : list Value) : M unit :=
  match ls with
  | [] => ret tt
  | l :: ls' =>
      (if l_once l then update_socket h (drop_listener (l_id l)) else ret tt) ;;;
      invoke (l_handler l) args ;;;
      run_listeners h ls' args
  end.

Definition deliver (h : nat) (s : Signal) : M unit :=
  fun w =>
    match sockets w !! h with
    | None => Ok tt w
    | Some sk =>
        (update_socket h (set_readyState (signal_state s (readyState sk))) ;;;
         run_listeners h
           (List.filter (fun l => String.eqb (l_event l) (signal_event s)) (listeners sk))
           (signal_args s)) w
    end.

End Transport.

End WithLibrary.

(** * Properties *)

Create HintDb handle.

Ltac run_monad :=
  unfold bind, ret, throw, try_catch, record, log, emit, ws_send, ws_close,
    update_socket, this_ws, this_isConnected, this_host, this_opts,
    assign_host, assign_ws; simpl.

(** ** Basic facts *)

Lemma isConnected_inv (w : World) :
  isConnected w = true ->
  exists h s, _ws w = Some h /\ sockets w !! h = Some s /\ readyState s = OPEN.
Proof.
  unfold isConnected. intros H.
  destruct (_ws w) as [h|]; [|discriminate].
  destruct (sockets w !! h) as [s|] eqn:Hs; [|discriminate].
  exists h, s. repeat split; auto. now apply Nat.eqb_eq in H.
Qed.

Lemma isConnected_no_handle (w : World) : _ws w = None -> isConnected w = false.
Proof. unfold isConnected. now intros ->. Qed.

Lemma events_of_app (t1 t2 : list Action) :
  events_of (t1 ++ t2) = events_of t1 ++ events_of t2.
Proof. unfold events_of. apply omap_app. Qed.

Lemma writes_of_app (t1 t2 : list Action) :
  writes_of (t1 ++ t2) = writes_of t1 ++ writes_of t2.
Proof. unfold writes_of. apply omap_app. Qed.

Lemma calls_of_app (f : nat) (t1 t2 : list Action) :
  calls_of f (t1 ++ t2) = calls_of f t1 ++ calls_of f t2.
Proof. unfold calls_of. apply omap_app. Qed.

Lemma socket_ops_of_app (t1 t2 : list Action) :
  socket_ops_of (t1 ++ t2) = socket_ops_of t1 ++ socket_ops_of t2.
Proof. unfold socket_ops_of. apply List.filter_app. Qed.

Lemma valid_envelope_test (data : Value) :
  negb (truthy data) || negb (truthy (get data "version"))
  || negb (truthy (get data "payload")) || negb (truthy (get data "channel"))
  = negb (valid_envelope data).
Proof.
  unfold valid_envelope.
  destruct (truthy data), (truthy (get data "version")),
    (truthy (get data "payload")), (truthy (get data "channel")); reflexivity.
Qed.

Lemma JSON_stringify_object (fs : list (string * Value)) :
  exists text, JSON_stringify (VObj fs) = VStr text.
Proof. unfold JSON_stringify. cbn [stringify]. eexists. reflexivity. Qed.

Arguments JSON_stringify : simpl never.

(** ** Inbound dispatch *)

(** What [_onMessage] does with a value: it is dispatched exactly when it
    and its [version], [payload] and [channel] are all truthy; then one
    event named by the channel value is handed to the emitter with the
    payload as its only argument.  Otherwise nothing is emitted, and the
    handle and the sockets are untouched. *)
Lemma onMessage_dispatches_iff_truthy (data flags : Value) (w : World) :
  exists w',
    _onMessage data flags w = Ok tt w'
    /\ events_of (trace w') =
         events_of (trace w) ++
           (if valid_envelope data
            then [(get data "channel", [get data "payload"])]
            else [])
    /\ _ws w' = _ws w /\ _host w' = _host w /\ sockets w' = sockets w.
Proof.
  unfold _onMessage. rewrite valid_envelope_test.
  destruct (valid_envelope data); simpl;
    eexists; (split; [reflexivity|]); simpl;
    rewrite events_of_app; simpl; auto.
Qed.

(** An object with all three fields whose payload [0] is falsy: no event
    is dispatched. *)
Example onMessage_present_fields_not_dispatched :
  has_field "version" msg_zero_payload = true
  /\ has_field "channel" msg_zero_payload = true
  /\ has_field "payload" msg_zero_payload = true
  /\ _onMessage msg_zero_payload VUndefined w_open
       = Ok tt (add_action (ALog "Received message without all necessary fields" []) w_open)
  /\ events_of (trace (world_of (_onMessage msg_zero_payload VUndefined w_open)))
       = events_of (trace w_open).
Proof. repeat split; reflexivity. Qed.

(** The receive scenario of the specification, had the frame been parsed
    into an object before it reached [_onMessage]: one [metrics] event. *)
Example onMessage_metrics :
  events_of (trace (world_of (_onMessage msg_metrics VUndefined w_open)))
  = [(VStr "metrics", [VObj [("cpu", VNum 10)]])].
Proof. reflexivity. Qed.

(** ** Outbound framing *)

(** C3: on a connected transport, with truthy channel and data, [send]
    returns normally and performs exactly one socket write, on the current
    socket: the JSON text of the packet whose only fields are [version]
    (the protocol constant), [payload] (the data) and [channel]. *)
Theorem send_writes_one_envelope (E : Env) (channel data : Value) (w : World) :
  truthy channel = true ->
  truthy data = true ->
  isConnected w = true ->
  exists h w' text,
    _ws w = Some h
    /\ send E channel data w = Ok tt w'
    /\ JSON_stringify (VObj [ ("version", PROTOCOL_VERSION E);
                              ("payload", data);
                              ("channel", channel) ]) = VStr text
    /\ writes_of (trace w') =
         writes_of (trace w) ++
           [ (h, VStr text, js_or (COMPRESS_PROTOCOL E) (VBool false)) ]
    /\ socket_ops_of (trace w') =
         socket_ops_of (trace w) ++
           [ AWsSend h (VStr text) (js_or (COMPRESS_PROTOCOL E) (VBool false)) ].
Proof.
  intros Hc Hd Hconn.
  destruct (isConnected_inv w Hconn) as (h & s & Hh & _ & _).
  destruct (JSON_stringify_object
              [ ("version", PROTOCOL_VERSION E); ("payload", data); ("channel", channel) ])
    as [text Htext].
  exists h. unfold send. rewrite Hc, Hd, Htext. run_monad.
  rewrite Hconn. simpl. rewrite Hh.
  eexists _, text. repeat split; simpl.
  - rewrite <- app_assoc, writes_of_app. reflexivity.
  - rewrite <- app_assoc, socket_ops_of_app. reflexivity.
Qed.

(** The send scenario of the specification, run on the model: one frame,
    fields in the order the packet literal lists them. *)
Lemma send_metrics_frame :
  exists h w' text,
    _ws w_open = Some h
    /\ send demo_env (VStr "metrics") (VObj [("cpu", VNum 10)]) w_open = Ok tt w'
    /\ JSON_stringify (VObj [ ("version", PROTOCOL_VERSION demo_env);
                              ("payload", VObj [("cpu", VNum 10)]);
                              ("channel", VStr "metrics") ]) = VStr text
    /\ writes_of (trace w') =
         writes_of (trace w_open) ++
           [ (h, VStr text, js_or (COMPRESS_PROTOCOL demo_env) (VBool false)) ]
    /\ socket_ops_of (trace w') =
         socket_ops_of (trace w_open) ++
           [ AWsSend h (VStr text) (js_or (COMPRESS_PROTOCOL demo_env) (VBool false)) ].
Proof.
  apply (send_writes_one_envelope demo_env (VStr "metrics") (VObj [("cpu", VNum 10)]) w_open);
    reflexivity.
Defined.

Example send_metrics_text :
  stringify (VObj [ ("version", VNum 1); ("payload", VObj [("cpu", VNum 10)]);
                    ("channel", VStr "metrics") ])
  = Some (String.concat EmptyString
            [ "{"; quote "version"; ":1,"; quote "payload"; ":{"; quote "cpu"; ":10},";
              quote "channel"; ":"; quote "metrics"; "}" ]).
Proof. vm_compute. reflexivity. Qed.

Lemma send_refused_logs (E : Env) (channel data : Value) (w : World) :
  truthy channel = false \/ truthy data = false \/ isConnected w = false ->
  exists line, send E channel data w = Ok tt (add_action (ALog line []) w).
Proof.
  intros H. unfold send.
  destruct (truthy channel) eqn:Hc; [destruct (truthy data) eqn:Hd|]; simpl.
  - destruct H as [H|[H|H]]; try discriminate.
    run_monad. rewrite H. simpl. eexists; reflexivity.
  - eexists; reflexivity.
  - eexists; reflexivity.
Qed.

Lemma log_line_observations (line : string) (w : World) :
  socket_ops_of (trace (add_action (ALog line []) w)) = socket_ops_of (trace w)
  /\ writes_of (trace (add_action (ALog line []) w)) = writes_of (trace w)
  /\ events_of (trace (add_action (ALog line []) w)) = events_of (trace w).
Proof.
  simpl. rewrite socket_ops_of_app, writes_of_app, events_of_app. simpl.
  rewrite !app_nil_r. auto.
Qed.

(** C5: with a falsy channel or data, or on a transport that is not
    connected, [send] returns normally having done nothing but log one
    diagnostic line: no socket operation, no event, and the handle, the
    address and every socket are as before. *)
Theorem send_refused_is_noop (E : Env) (channel data : Value) (w : World) :
  truthy channel = false \/ truthy data = false \/ isConnected w = false ->
  exists w' line,
    send E channel data w = Ok tt w'
    /\ trace w' = trace w ++ [ALog line []]
    /\ socket_ops_of (trace w') = socket_ops_of (trace w)
    /\ writes_of (trace w') = writes_of (trace w)
    /\ events_of (trace w') = events_of (trace w)
    /\ _ws w' = _ws w /\ _host w' = _host w /\ sockets w' = sockets w
    /\ opts w' = opts w.
Proof.
  intros H. destruct (send_refused_logs E channel data w H) as [line Hs].
  destruct (log_line_observations line w) as (Ho & Hw & He).
  exists (add_action (ALog line []) w), line.
  split; [assumption|]. split; [reflexivity|].
  split; [assumption|]. split; [assumption|]. split; [assumption|].
  repeat split; reflexivity.
Qed.

Lemma send_refused_when_closed :
  exists w' line,
    send demo_env (VStr "metrics") (VObj [("cpu", VNum 10)]) w_closed = Ok tt w'
    /\ trace w' = trace w_closed ++ [ALog line []]
    /\ socket_ops_of (trace w') = socket_ops_of (trace w_closed)
    /\ writes_of (trace w') = writes_of (trace w_closed)
    /\ events_of (trace w') = events_of (trace w_closed)
    /\ _ws w' = _ws w_closed /\ _host w' = _host w_closed
    /\ sockets w' = sockets w_closed
    /\ opts w' = opts w_closed.
Proof.
  apply (send_refused_is_noop demo_env (VStr "metrics") (VObj [("cpu", VNum 10)]) w_closed).
  right. right. reflexivity.
Defined.

(** ** Truthiness *)

Lemma assoc_remove_key (k : string) (fs : list (string * Value)) :
  assoc k (remove_key k fs) = VUndefined.
Proof.
  induction fs as [|[k' v] fs IH]; simpl; [reflexivity|].
  destruct (String.eqb k k') eqn:Hk; simpl; [assumption|].
  now rewrite Hk.
Qed.

Lemma onMessage_invalid (data flags : Value) :
  valid_envelope data = false ->
  _onMessage data flags = log "Received message without all necessary fields" [].
Proof. intros H. unfold _onMessage. now rewrite valid_envelope_test, H. Qed.

Lemma valid_envelope_falsy_field (k : string) (fs : list (string * Value)) :
  In k ["version"; "channel"; "payload"] ->
  truthy (assoc k fs) = false ->
  valid_envelope (VObj fs) = false.
Proof.
  intros Hk Hf. unfold valid_envelope. simpl in *.
  destruct Hk as [<-|[<-|[<-|[]]]]; rewrite Hf;
    rewrite ?andb_false_r; reflexivity.
Qed.

(** C10: the tests are truthiness tests.  A [send] whose channel or data
    is falsy writes nothing and is the very [send] with that argument left
    out; an inbound object in which one of the three fields is falsy
    dispatches nothing and is handled as the object without that key. *)
Theorem falsy_field_is_missing_field
    (E : Env) (channel data flags : Value) (k : string)
    (fs : list (string * Value)) (w : World) :
  (truthy channel = false \/ truthy data = false ->
     send E channel data w
       = send E (if truthy channel then channel else VUndefined)
                (if truthy data then data else VUndefined) w
     /\ writes_of (trace (world_of (send E channel data w))) = writes_of (trace w)
     /\ socket_ops_of (trace (world_of (send E channel data w))) = socket_ops_of (trace w))
  /\ (In k ["version"; "channel"; "payload"] ->
      truthy (assoc k fs) = false ->
      _onMessage (VObj fs) flags w = _onMessage (VObj (remove_key k fs)) flags w
      /\ events_of (trace (world_of (_onMessage (VObj fs) flags w))) = events_of (trace w)).
Proof.
  split.
  - intros H.
    destruct (send_refused_logs E channel data w) as (line & Hs).
    { tauto. }
    destruct (log_line_observations line w) as (Ho & Hw & _).
    rewrite Hs. simpl world_of. split; [|split; assumption].
    rewrite <- Hs. unfold send.
    destruct (truthy channel) eqn:Hc; simpl.
    + destruct H as [H|H]; [discriminate|]. rewrite H. simpl. now rewrite Hc.
    + reflexivity.
  - intros Hk Hf.
    rewrite (onMessage_invalid (VObj fs)) by (eapply valid_envelope_falsy_field; eauto).
    rewrite (onMessage_invalid (VObj (remove_key k fs))).
    + split; [reflexivity|]. run_monad. rewrite events_of_app. simpl. apply app_nil_r.
    + apply (valid_envelope_falsy_field k); [assumption|].
      now rewrite assoc_remove_key.
Qed.

Lemma falsy_zero_is_missing :
  (send demo_env (VStr "metrics") (VNum 0) w_open
     = send demo_env (if truthy (VStr "metrics") then VStr "metrics" else VUndefined)
              (if truthy (VNum 0) then VNum 0 else VUndefined) w_open
   /\ writes_of (trace (world_of (send demo_env (VStr "metrics") (VNum 0) w_open)))
        = writes_of (trace w_open)
   /\ socket_ops_of (trace (world_of (send demo_env (VStr "metrics") (VNum 0) w_open)))
        = socket_ops_of (trace w_open))
  /\ (_onMessage msg_zero_payload VUndefined w_open
        = _onMessage
            (VObj (remove_key "payload"
                     [("version", VNum 1); ("channel", VStr "metrics"); ("payload", VNum 0)]))
            VUndefined w_open
      /\ events_of (trace (world_of (_onMessage msg_zero_payload VUndefined w_open)))
           = events_of (trace w_open)).
Proof.
  split.
  - apply (falsy_field_is_missing_field demo_env (VStr "metrics") (VNum 0) VUndefined
             "payload" [("version", VNum 1); ("channel", VStr "metrics"); ("payload", VNum 0)]
             w_open).
    right. reflexivity.
  - apply (falsy_field_is_missing_field demo_env (VStr "metrics") (VNum 0) VUndefined
             "payload" [("version", VNum 1); ("channel", VStr "metrics"); ("payload", VNum 0)]
             w_open).
    + simpl. tauto.
    + reflexivity.
Defined.

Example falsy_values :
  List.map truthy [VNum 0; VBool false; VStr EmptyString; VNull; VUndefined; VNaN]
  = [false; false; false; false; false; false]
  /\ List.map truthy [VNum 1; VBool true; VStr "0"; VObj []; VArr []]
  = [true; true; true; true; true].
Proof. split; reflexivity. Qed.

(** ** What connect builds *)

Lemma alter_last (f : WebSocket -> WebSocket) (ss : list WebSocket) (s : WebSocket) :
  alter f (length ss) (ss ++ [s]) = ss ++ [f s].
Proof.
  rewrite <- (Nat.add_0_r (length ss)) at 1. now rewrite alter_app_r.
Qed.

Lemma lookup_last (ss : list WebSocket) (s : WebSocket) :
  (ss ++ [s]) !! length ss = Some s.
Proof. now apply list_lookup_middle. Qed.

Lemma connect_function (E : Env) (url : Value) (f : nat) (w : World) :
  connect E url (VFun f) w = Ok tt (connected_world E url (connect_listeners f) w).
Proof.
  unfold connect, new_WebSocket, ws_once, ws_on. run_monad.
  rewrite !alter_last. reflexivity.
Qed.

Lemma connect_not_function (E : Env) (url cb : Value) (w : World) :
  is_function cb = false ->
  connect E url cb w
  = Throw (VError "listener must be a function") (connected_world E url [] w).
Proof.
  intros Hcb. unfold connect, new_WebSocket, ws_once, ws_on. run_monad.
  destruct cb; try discriminate; reflexivity.
Qed.

Lemma connect_world (E : Env) (url cb : Value) (w : World) :
  exists ls, world_of (connect E url cb w) = connected_world E url ls w.
Proof.
  destruct (is_function cb) eqn:Hcb.
  - destruct cb; try discriminate. rewrite connect_function. eexists; reflexivity.
  - rewrite connect_not_function by assumption. eexists; reflexivity.
Qed.

(** C7, as the code has it: every [connect] constructs one socket for the
    given address, compression off, with exactly four headers:
    [X-KM-PUBLIC] (the public key), [X-KM-DATA] (the cipher, under the
    secret key, of the JSON text of the system metadata), [X-KM-SERVER]
    (the machine name) and [X-PM2-VERSION] (the client version). *)
Theorem connect_sends_four_headers (E : Env) (url cb : Value) (w : World) :
  exists s,
    sockets (world_of (connect E url cb w)) !! length (sockets w) = Some s
    /\ _ws (world_of (connect E url cb w)) = Some (length (sockets w))
    /\ ws_url s = url
    /\ perMessageDeflate s = false
    /\ headers s =
         [ ("X-KM-PUBLIC", PUBLIC_KEY (opts w));
           ("X-KM-DATA",
            cipherMessage E (JSON_stringify (getSystemMetadata E)) (SECRET_KEY (opts w)));
           ("X-KM-SERVER", MACHINE_NAME (opts w));
           ("X-PM2-VERSION", PM2_VERSION (opts w)) ]
    /\ socket_ops_of (trace (world_of (connect E url cb w)))
         = socket_ops_of (trace w) ++ [AWsNew (length (sockets w)) url].
Proof.
  destruct (connect_world E url cb w) as [ls ->].
  eexists. split; [apply lookup_last|]. simpl.
  rewrite socket_ops_of_app. repeat split; reflexivity.
Qed.

(** C7, the claim as written fails: the socket opened by [connect] carries
    none of the four header names the claim lists. *)
Lemma connect_header_names_differ :
  exists s,
    sockets w_connecting !! 0%nat = Some s
    /\ List.map fst (headers s) = ["X-KM-PUBLIC"; "X-KM-DATA"; "X-KM-SERVER"; "X-PM2-VERSION"]
    /\ assoc "X-PUBLIC-KEY" (headers s) = VUndefined
    /\ assoc "X-AUTH-DATA" (headers s) = VUndefined
    /\ assoc "X-SERVER-NAME" (headers s) = VUndefined
    /\ assoc "X-CLIENT-VERSION" (headers s) = VUndefined.
Proof. eexists. repeat split; reflexivity. Qed.

(** ** The completion callback of connect *)

(** C2, the code at the failing traces: [connect] registers [cb] twice,
    once for the first [error] and once for the first [open], and the two
    registrations are independent.  An open followed by an error, or an
    error followed by an open, runs the callback twice. *)
Theorem connect_callback_runs_twice :
  calls_of 7 (trace (run demo_env
      [OpSignal 0 SigOpen; OpSignal 0 (SigError (VError "boom"))] w_connecting))
    = [ []; [VError "boom"] ]
  /\ calls_of 7 (trace (run demo_env
      [OpSignal 0 (SigError (VError "boom")); OpSignal 0 SigOpen] w_connecting))
    = [ [VError "boom"]; [] ].
Proof. split; vm_compute; reflexivity. Qed.

Lemma world_of_then_ret (m : M unit) (w : World) :
  world_of (bind m (fun _ => ret tt) w) = world_of (m w).
Proof. unfold bind, ret. destruct (m w) as [[] ?|? ?]; reflexivity. Qed.

Lemma onError_no_calls (f : nat) (err : Value) (w : World) :
  calls_of f (trace (world_of (_onError err w))) = calls_of f (trace w).
Proof.
  unfold _onError, bind, this_isConnected, this_ws, emit, record, ret, throw, ws_close,
    update_socket.
  destruct (isConnected w); [destruct (_ws w); [destruct err|]|];
    cbn -[calls_of]; rewrite <- ?app_assoc, ?calls_of_app; cbn; rewrite ?app_nil_r; reflexivity.
Qed.

Lemma open_listeners (f : nat) :
  List.filter (fun l => String.eqb (l_event l) "open") (connect_listeners f)
  = [ {| l_id := 1; l_event := "open"; l_once := true; l_handler := HUser f |} ].
Proof. reflexivity. Qed.

Lemma error_listeners_after_open (f : nat) :
  List.filter (fun l => String.eqb (l_event l) "error")
    (List.filter (fun l => negb (Nat.eqb (l_id l) 1)) (connect_listeners f))
  = [ {| l_id := 0; l_event := "error"; l_once := true; l_handler := HUser f |};
      {| l_id := 3; l_event := "error"; l_once := false; l_handler := H_onError |} ].
Proof. reflexivity. Qed.

(** On any transport and for any callback and error: once the socket made
    by [connect] has opened, its first error still reaches the callback,
    which has then run twice. *)
Lemma connect_open_then_error_calls_twice
    (E : Env) (url err : Value) (f : nat) (w : World) :
  calls_of f (trace (run E [ OpConnect url (VFun f);
                             OpSignal (length (sockets w)) SigOpen;
                             OpSignal (length (sockets w)) (SigError err) ] w))
  = calls_of f (trace w) ++ [ []; [err] ].
Proof.
  cbn [run run_op]. rewrite connect_function. cbn [world_of].
  unfold deliver at 2. cbn [connected_world sockets]. rewrite lookup_last.
  cbn [listeners signal_event readyState signal_state signal_args].
  rewrite open_listeners.
  cbn [run_listeners l_once l_id l_handler invoke].
  unfold bind, ret, record, update_socket.
  cbn [connected_world sockets set_sockets world_of add_action trace opts _ws _host].
  rewrite !alter_last.
  unfold deliver. cbn [sockets set_sockets add_action]. rewrite lookup_last.
  cbn [set_readyState drop_listener listeners signal_event readyState signal_state signal_args
       ws_url perMessageDeflate headers registered].
  rewrite error_listeners_after_open.
  cbn [run_listeners l_once l_id l_handler invoke arg nth].
  unfold bind at 1 2 3. unfold update_socket at 1 2. unfold record at 1. unfold ret at 1.
  cbn -[calls_of _onError alter].
  rewrite world_of_then_ret, onError_no_calls.
  cbn [trace add_action set_sockets connected_world].
  rewrite !calls_of_app. cbn. rewrite Nat.eqb_refl, app_nil_r, <- app_assoc. reflexivity.
Qed.

(** ** Reconnecting *)

Lemma disconnect_returns (w : World) :
  exists w1,
    disconnect w = Ok tt w1
    /\ _ws w1 = _ws w /\ _host w1 = _host w /\ opts w1 = opts w
    /\ length (sockets w1) = length (sockets w)
    /\ socket_ops_of (trace w1) =
         socket_ops_of (trace w) ++
           match _ws w with
           | Some h => if isConnected w then [AWsClose h 1000 (VStr "Disconnecting")] else []
           | None => []
           end.
Proof.
  unfold disconnect. run_monad.
  destruct (isConnected w) eqn:Hconn.
  - destruct (isConnected_inv w Hconn) as (h & s & Hh & _ & _). rewrite Hh. simpl.
    eexists. split; [reflexivity|]. simpl.
    rewrite length_alter, socket_ops_of_app. auto.
  - eexists. split; [reflexivity|].
    destruct (_ws w); rewrite app_nil_r; auto.
Qed.

Example reconnect_after_connect_reuses_url :
  option_map ws_url
    (sockets (world_of (reconnect demo_env (VFun 3) VUndefined w_closed)) !! 1%nat)
  = Some demo_url.
Proof. reflexivity. Qed.

(** ** The socket handle *)

Lemma keeps_ret {A : Type} (a : A) : keeps_handle (ret a).
Proof. intros w. reflexivity. Qed.

Lemma keeps_throw {A : Type} (e : Value) : keeps_handle (@throw A e).
Proof. intros w. reflexivity. Qed.

Lemma keeps_bind {A B : Type} (m : M A) (k : A -> M B) :
  keeps_handle m -> (forall a, keeps_handle (k a)) -> keeps_handle (bind m k).
Proof.
  intros Hm Hk w. unfold bind. specialize (Hm w).
  destruct (m w) as [a w1|e w1]; simpl in *.
  - now rewrite Hk.
  - assumption.
Qed.

Lemma keeps_try_catch {A : Type} (m : M A) (handler : Value -> M A) :
  keeps_handle m -> (forall e, keeps_handle (handler e)) -> keeps_handle (try_catch m handler).
Proof.
  intros Hm Hk w. unfold try_catch. specialize (Hm w).
  destruct (m w) as [a w1|e w1]; simpl in *.
  - assumption.
  - now rewrite Hk.
Qed.

Lemma keeps_if {A : Type} (c : bool) (m1 m2 : M A) :
  keeps_handle m1 -> keeps_handle m2 -> keeps_handle (if c then m1 else m2).
Proof. intros H1 H2. destruct c; assumption. Qed.

Lemma keeps_record (a : Action) : keeps_handle (record a).
Proof. intros w. reflexivity. Qed.

Lemma keeps_update_socket (h : nat) (f : WebSocket -> WebSocket) :
  keeps_handle (update_socket h f).
Proof. intros w. reflexivity. Qed.

Lemma keeps_this_ws : keeps_handle this_ws.
Proof. intros w. unfold this_ws. destruct (_ws w) eqn:Hw; simpl; assumption. Qed.

Lemma keeps_this_isConnected : keeps_handle this_isConnected.
Proof. intros w. reflexivity. Qed.

#[local] Hint Resolve keeps_ret keeps_throw keeps_bind keeps_try_catch keeps_if
  keeps_record keeps_update_socket keeps_this_ws keeps_this_isConnected : handle.

Lemma keeps_ws_close (h : nat) (code : Z) (reason : Value) :
  keeps_handle (ws_close h code reason).
Proof. unfold ws_close. auto with handle. Qed.

Lemma keeps_ws_ping (h : nat) (data : Value) (mask dontFail : bool) :
  keeps_handle (ws_ping h data mask dontFail).
Proof.
  intros w. unfold ws_ping.
  destruct (sockets w !! h) as [s|]; [|reflexivity].
  destruct (Nat.eqb (readyState s) OPEN); [reflexivity|].
  now destruct dontFail.
Qed.

#[local] Hint Resolve keeps_ws_close keeps_ws_ping : handle.

Lemma keeps_disconnect : keeps_handle disconnect.
Proof. unfold disconnect. auto 6 with handle. Qed.

Lemma keeps_onClose (code reason : Value) : keeps_handle (_onClose code reason).
Proof. unfold _onClose, emit. auto with handle. Qed.

Lemma keeps_onError (err : Value) : keeps_handle (_onError err).
Proof.
  unfold _onError, emit.
  apply keeps_bind; [|auto with handle].
  apply keeps_bind; [auto with handle|]. intros c.
  apply keeps_if; [|auto with handle].
  apply keeps_bind; [auto with handle|]. intros h.
  destruct err; auto with handle.
Qed.

Lemma keeps_onMessage (data flags : Value) : keeps_handle (_onMessage data flags).
Proof. unfold _onMessage, log, emit. auto with handle. Qed.

Lemma keeps_ping (data : Value) : keeps_handle (ping data).
Proof. unfold ping, log, emit. auto 6 with handle. Qed.

Lemma keeps_send (E : Env) (channel data : Value) : keeps_handle (send E channel data).
Proof.
  unfold send, log, ws_send.
  apply keeps_if; [auto with handle|].
  apply keeps_bind; [auto with handle|]. intros c.
  apply keeps_if; auto 6 with handle.
Qed.

Lemma keeps_invoke (hd : Handler) (args : list Value) : keeps_handle (invoke hd args).
Proof.
  destruct hd; simpl;
    auto using keeps_record, keeps_onClose, keeps_onError, keeps_onMessage.
Qed.

Lemma keeps_run_listeners (h : nat) (ls : list Listener) (args : list Value) :
  keeps_handle (run_listeners h ls args).
Proof.
  induction ls as [|l ls IH]; simpl; [apply keeps_ret|].
  apply keeps_bind; [auto with handle|]. intros _.
  apply keeps_bind; [apply keeps_invoke|]. intros _. exact IH.
Qed.

Lemma keeps_deliver (h : nat) (s : Signal) : keeps_handle (deliver h s).
Proof.
  intros w. unfold deliver.
  destruct (sockets w !! h) as [sk|]; [|reflexivity].
  apply keeps_bind; [auto with handle|]. intros _. apply keeps_run_listeners.
Qed.

Lemma connect_sets_handle (E : Env) (url cb : Value) (w : World) :
  _ws (world_of (connect E url cb w)) = Some (length (sockets w)).
Proof. destruct (connect_world E url cb w) as [ls ->]. reflexivity. Qed.

Lemma reconnect_sets_handle (E : Env) (url cb : Value) (w : World) :
  _ws (world_of (reconnect E url cb w)) = Some (length (sockets w)).
Proof.
  destruct (disconnect_returns w) as (w1 & Hd & _ & _ & _ & Hlen & _).
  unfold reconnect, bind, this_host. simpl. rewrite Hd.
  now rewrite connect_sets_handle, Hlen.
Qed.

Lemma run_op_handle (E : Env) (op : Op) (w : World) :
  _ws (world_of (run_op E op w)) =
    match op with
    | OpConnect _ _ | OpReconnect _ _ => Some (length (sockets w))
    | _ => _ws w
    end.
Proof.
  destruct op; simpl.
  - apply connect_sets_handle.
  - apply keeps_disconnect.
  - apply reconnect_sets_handle.
  - apply keeps_ping.
  - apply keeps_send.
  - apply keeps_deliver.
Qed.

Lemma run_keeps_handle_set (E : Env) (ops : list Op) (w : World) :
  is_Some (_ws w) -> is_Some (_ws (run E ops w)).
Proof.
  revert w. induction ops as [|op ops IH]; intros w Hw; simpl; [assumption|].
  apply IH. rewrite run_op_handle. destruct op; eauto.
Qed.

(** C8, as the code has it: a nil handle does imply a disconnected
    transport, but the handle is nil only until the first connect.
    [connect] and [reconnect] install the handle of a fresh socket; every
    other step ([disconnect], [ping], [send], and any socket signal with
    the handlers it runs) leaves the handle as it was, so along any run a
    handle once set stays set. *)
Theorem handle_set_by_connect_never_cleared
    (E : Env) (op : Op) (ops : list Op) (w : World) :
  (_ws w = None -> isConnected w = false)
  /\ _ws (world_of (run_op E op w)) =
       match op with
       | OpConnect _ _ | OpReconnect _ _ => Some (length (sockets w))
       | _ => _ws w
       end
  /\ (is_Some (_ws w) -> is_Some (_ws (run E ops w))).
Proof.
  split; [apply isConnected_no_handle|].
  split; [apply run_op_handle|apply run_keeps_handle_set].
Qed.

Lemma handle_stays_after_teardown :
  isConnected w_fresh = false
  /\ _ws (world_of (run_op demo_env OpDisconnect w_open)) = _ws w_open
  /\ is_Some (_ws (run demo_env
                     [OpDisconnect; OpSignal 0 (SigClose (VNum 1000) (VStr "Disconnecting"))]
                     w_open)).
Proof.
  split; [|split].
  - apply (handle_set_by_connect_never_cleared demo_env OpDisconnect [] w_fresh). reflexivity.
  - apply (handle_set_by_connect_never_cleared demo_env OpDisconnect [] w_open).
  - apply (handle_set_by_connect_never_cleared demo_env OpDisconnect
             [OpDisconnect; OpSignal 0 (SigClose (VNum 1000) (VStr "Disconnecting"))] w_open).
    eexists. reflexivity.
Defined.

(** C8, the claim as written fails: after connect, open, disconnect and
    the close signal the transport is disconnected and its handle is still
    the closed socket. *)
Lemma disconnected_with_handle_set :
  w_closed = run demo_env
               [ OpConnect demo_url (VFun 7); OpSignal 0 SigOpen; OpDisconnect;
                 OpSignal 0 (SigClose (VNum 1000) (VStr "Disconnecting")) ] w_fresh
  /\ isConnected w_closed = false
  /\ _ws w_closed = Some 0%nat
  /\ option_map readyState (sockets w_closed !! 0%nat) = Some CLOSED.
Proof. split; [|split; [|split]]; vm_compute; reflexivity. Qed.

(** ** Disconnecting *)

Lemma isConnected_after_close (h : nat) (w : World) :
  _ws w = Some h ->
  isConnected
    (set_sockets (alter (fun s => set_readyState (closing_state (readyState s)) s) h (sockets w)) w)
  = false.
Proof.
  intros Hh. unfold isConnected. simpl. rewrite Hh, list_lookup_alter_eq.
  destruct (sockets w !! h) as [s|]; simpl; [|reflexivity].
  unfold closing_state. destruct (readyState s) as [|[|[|n]]]; reflexivity.
Qed.

(** X1: [disconnect] on a transport that is not connected changes nothing
    at all.  On a connected one it issues exactly one [close(1000,
    'Disconnecting')] on the current socket, which then is closing, and
    the transport is no longer connected; handle and address stay. *)
Theorem disconnect_closes_current_socket (w : World) :
  (isConnected w = false -> disconnect w = Ok tt w)
  /\ (isConnected w = true ->
      exists h w',
        _ws w = Some h
        /\ disconnect w = Ok tt w'
        /\ trace w' = trace w ++ [AWsClose h 1000 (VStr "Disconnecting")]
        /\ option_map readyState (sockets w' !! h) = Some CLOSING
        /\ isConnected w' = false
        /\ _ws w' = _ws w /\ _host w' = _host w).
Proof.
  split; intros Hconn; unfold disconnect; run_monad; rewrite Hconn.
  - reflexivity.
  - destruct (isConnected_inv w Hconn) as (h & s & Hh & Hs & Hrs).
    rewrite Hh. simpl. exists h. eexists. split; [reflexivity|].
    split; [reflexivity|]. simpl. split; [reflexivity|].
    split; [|split; [|split; simpl; rewrite ?Hh; reflexivity]].
    + rewrite list_lookup_alter_eq, Hs. simpl. now rewrite Hrs.
    + apply (isConnected_after_close h (add_action _ w)). assumption.
Qed.

Lemma disconnect_open_and_fresh :
  disconnect w_fresh = Ok tt w_fresh
  /\ exists h w',
       _ws w_open = Some h
       /\ disconnect w_open = Ok tt w'
       /\ trace w' = trace w_open ++ [AWsClose h 1000 (VStr "Disconnecting")]
       /\ option_map readyState (sockets w' !! h) = Some CLOSING
       /\ isConnected w' = false
       /\ _ws w' = _ws w_open /\ _host w' = _host w_open.
Proof.
  split.
  - apply (disconnect_closes_current_socket w_fresh). reflexivity.
  - apply (disconnect_closes_current_socket w_open). reflexivity.
Defined.

Lemma disconnect_leaves_disconnected (w : World) :
  isConnected (world_of (disconnect w)) = false.
Proof.
  unfold disconnect. run_monad.
  destruct (isConnected w) eqn:Hconn; [|assumption].
  destruct (isConnected_inv w Hconn) as (h & s & Hh & _ & _).
  rewrite Hh. simpl.
  apply (isConnected_after_close h (add_action _ w)). assumption.
Qed.

(** X2: whatever the state, after [disconnect] the transport is not
    connected, a second [disconnect] changes nothing, and a [send] writes
    nothing to any socket. *)
Theorem nothing_is_sent_after_disconnect (E : Env) (channel data : Value) (w : World) :
  isConnected (world_of (disconnect w)) = false
  /\ disconnect (world_of (disconnect w)) = Ok tt (world_of (disconnect w))
  /\ writes_of (trace (run E [OpDisconnect; OpSend channel data] w)) = writes_of (trace w).
Proof.
  pose proof (disconnect_leaves_disconnected w) as Hd.
  assert (Hw : writes_of (trace (world_of (disconnect w))) = writes_of (trace w)).
  { unfold disconnect. run_monad. destruct (isConnected w); [|reflexivity].
    destruct (_ws w); simpl; [|reflexivity].
    rewrite writes_of_app. apply app_nil_r. }
  assert (Hs : writes_of (trace (world_of (send E channel data (world_of (disconnect w)))))
               = writes_of (trace w)).
  { destruct (send_refused_logs E channel data (world_of (disconnect w))) as [line ->];
      [tauto|].
    simpl world_of.
    destruct (log_line_observations line (world_of (disconnect w))) as (_ & -> & _).
    exact Hw. }
  split; [exact Hd|]. split; [|exact Hs].
  unfold disconnect at 1. run_monad. now rewrite Hd.
Qed.

(** ** What handlers and calls leave alone *)

Section Preservation.

Context {B : Type} (proj : World -> B).

Hypothesis proj_trace : forall a w, proj (add_action a w) = proj w.

Hypothesis proj_ready :
  forall (g : WebSocket -> nat) h w,
    proj (set_sockets (alter (fun s => set_readyState (g s) s) h (sockets w)) w) = proj w.

Lemma preserves_ret {A : Type} (a : A) : preserves proj (ret a).
Proof. intros w. reflexivity. Qed.

Lemma preserves_throw {A : Type} (e : Value) : preserves proj (@throw A e).
Proof. intros w. reflexivity. Qed.

Lemma preserves_bind {A C : Type} (m : M A) (k : A -> M C) :
  preserves proj m -> (forall a, preserves proj (k a)) -> preserves proj (bind m k).
Proof.
  intros Hm Hk w. unfold bind. specialize (Hm w).
  destruct (m w) as [a w1|e w1]; simpl in *.
  - now rewrite Hk.
  - assumption.
Qed.

Lemma preserves_try_catch {A : Type} (m : M A) (handler : Value -> M A) :
  preserves proj m -> (forall e, preserves proj (handler e)) ->
  preserves proj (try_catch m handler).
Proof.
  intros Hm Hk w. unfold try_catch. specialize (Hm w).
  destruct (m w) as [a w1|e w1]; simpl in *.
  - assumption.
  - now rewrite Hk.
Qed.

Lemma preserves_if {A : Type} (c : bool) (m1 m2 : M A) :
  preserves proj m1 -> preserves proj m2 -> preserves proj (if c then m1 else m2).
Proof. intros H1 H2. destruct c; assumption. Qed.

Lemma preserves_record (a : Action) : preserves proj (record a).
Proof. intros w. apply proj_trace. Qed.

Lemma preserves_this_ws : preserves proj this_ws.
Proof. intros w. unfold this_ws. destruct (_ws w); reflexivity. Qed.

Lemma preserves_this_isConnected : preserves proj this_isConnected.
Proof. intros w. reflexivity. Qed.

Lemma preserves_set_state (h : nat) (g : WebSocket -> nat) :
  preserves proj (update_socket h (fun s => set_readyState (g s) s)).
Proof. intros w. apply proj_ready. Qed.

Lemma preserves_ws_close (h : nat) (code : Z) (reason : Value) :
  preserves proj (ws_close h code reason).
Proof.
  unfold ws_close. apply preserves_bind; [apply preserves_record|]. intros _.
  apply (preserves_set_state h (fun s => closing_state (readyState s))).
Qed.

Lemma preserves_ws_ping (h : nat) (data : Value) (mask dontFail : bool) :
  preserves proj (ws_ping h data mask dontFail).
Proof.
  intros w. unfold ws_ping.
  destruct (sockets w !! h) as [s|]; [|reflexivity].
  destruct (Nat.eqb (readyState s) OPEN); [apply proj_trace|].
  destruct dontFail; reflexivity.
Qed.

Lemma preserves_disconnect : preserves proj disconnect.
Proof.
  unfold disconnect. apply preserves_bind; [apply preserves_this_isConnected|]. intros c.
  apply preserves_if; [|apply preserves_ret].
  apply preserves_bind; [apply preserves_this_ws|]. intros h. apply preserves_ws_close.
Qed.

Lemma preserves_onClose (code reason : Value) : preserves proj (_onClose code reason).
Proof. apply preserves_record. Qed.

Lemma preserves_onError (err : Value) : preserves proj (_onError err).
Proof.
  unfold _onError. apply preserves_bind; [|intros _; apply preserves_record].
  apply preserves_bind; [apply preserves_this_isConnected|]. intros c.
  apply preserves_if; [|apply preserves_ret].
  apply preserves_bind; [apply preserves_this_ws|]. intros h.
  destruct err; first [apply preserves_throw | apply preserves_ws_close].
Qed.

Lemma preserves_onMessage (data flags : Value) : preserves proj (_onMessage data flags).
Proof. unfold _onMessage. apply preserves_if; apply preserves_record. Qed.

Lemma preserves_ping (data : Value) : preserves proj (ping data).
Proof.
  unfold ping. apply preserves_bind; [apply preserves_record|]. intros _.
  apply preserves_try_catch; [|intros e; apply preserves_record].
  apply preserves_bind; [apply preserves_this_ws|]. intros h. apply preserves_ws_ping.
Qed.

Lemma preserves_send (E : Env) (channel data : Value) : preserves proj (send E channel data).
Proof.
  unfold send. apply preserves_if; [apply preserves_record|].
  apply preserves_bind; [apply preserves_this_isConnected|]. intros c.
  apply preserves_if; [apply preserves_record|].
  apply preserves_bind; [apply preserves_record|]. intros _.
  apply preserves_bind; [apply preserves_this_ws|]. intros h. apply preserves_record.
Qed.

Lemma preserves_invoke (hd : Handler) (args : list Value) : preserves proj (invoke hd args).
Proof.
  destruct hd; simpl.
  - apply preserves_record.
  - apply preserves_onClose.
  - apply preserves_onError.
  - apply preserves_onMessage.
Qed.

End Preservation.

Lemma map_alter_same {A C : Type} (p : A -> C) (f : A -> A) (h : nat) (l : list A) :
  (forall x, p (f x) = p x) -> List.map p (alter f h l) = List.map p l.
Proof.
  intros Hp. revert h. induction l as [|x l IH]; intros [|h]; simpl; try reflexivity.
  - now rewrite Hp.
  - f_equal. apply IH.
Qed.

Lemma wiring_trace (a : Action) (w : World) : wiring (add_action a w) = wiring w.
Proof. reflexivity. Qed.

Lemma wiring_alter (f : WebSocket -> WebSocket) (h : nat) (w : World) :
  (forall s, socket_identity (f s) = socket_identity s) ->
  wiring (set_sockets (alter f h (sockets w)) w) = wiring w.
Proof. intros Hf. unfold wiring. simpl. now rewrite map_alter_same. Qed.

Lemma wiring_ready (g : WebSocket -> nat) (h : nat) (w : World) :
  wiring (set_sockets (alter (fun s => set_readyState (g s) s) h (sockets w)) w) = wiring w.
Proof. apply wiring_alter. reflexivity. Qed.

Lemma tables_trace (a : Action) (w : World) :
  listener_tables (add_action a w) = listener_tables w.
Proof. reflexivity. Qed.

Lemma tables_ready (g : WebSocket -> nat) (h : nat) (w : World) :
  listener_tables (set_sockets (alter (fun s => set_readyState (g s) s) h (sockets w)) w)
  = listener_tables w.
Proof. unfold listener_tables. simpl. now rewrite map_alter_same. Qed.

Lemma wiring_run_listeners (h : nat) (ls : list Listener) (args : list Value) :
  preserves wiring (run_listeners h ls args).
Proof.
  induction ls as [|l ls IH]; simpl; [apply preserves_ret|].
  apply preserves_bind.
  - destruct (l_once l); [|apply preserves_ret].
    intros w. apply wiring_alter. reflexivity.
  - intros _. apply preserves_bind; [|intros _; exact IH].
    apply preserves_invoke; first [apply wiring_trace|apply wiring_ready].
Qed.

Lemma wiring_deliver (h : nat) (s : Signal) : preserves wiring (deliver h s).
Proof.
  intros w. unfold deliver.
  destruct (sockets w !! h) as [sk|]; [|reflexivity].
  apply preserves_bind; [|intros _; apply wiring_run_listeners].
  apply (preserves_set_state wiring wiring_ready h (fun _ => signal_state s (readyState sk))).
Qed.

(** X3: only [connect] and [reconnect] open sockets or touch the recorded
    address.  [disconnect], [ping], [send] and every socket signal, with
    whatever handlers it runs, leave the number of sockets, each socket's
    address and headers, the recorded address and the options as they
    were: nothing reconnects on its own. *)
Theorem only_connect_opens_sockets (E : Env) (op : Op) (w : World) :
  opens_socket op = false ->
  wiring (world_of (run_op E op w)) = wiring w
  /\ length (sockets (world_of (run_op E op w))) = length (sockets w)
  /\ _host (world_of (run_op E op w)) = _host w.
Proof.
  intros Hop.
  assert (H : wiring (world_of (run_op E op w)) = wiring w).
  { destruct op; try discriminate; simpl.
    - apply preserves_disconnect; first [apply wiring_trace|apply wiring_ready].
    - apply preserves_ping; first [apply wiring_trace|apply wiring_ready].
    - apply preserves_send; first [apply wiring_trace|apply wiring_ready].
    - apply wiring_deliver. }
  split; [exact H|]. unfold wiring in H. injection H as Hhost _ Hmap.
  split; [|exact Hhost].
  apply (f_equal (@length _)) in Hmap. now rewrite !length_map in Hmap.
Qed.

Lemma error_signal_opens_nothing :
  wiring (world_of (run_op demo_env (OpSignal 0 (SigError (VError "boom"))) w_open))
    = wiring w_open
  /\ length (sockets (world_of (run_op demo_env (OpSignal 0 (SigError (VError "boom"))) w_open)))
    = length (sockets w_open)
  /\ _host (world_of (run_op demo_env (OpSignal 0 (SigError (VError "boom"))) w_open))
    = _host w_open.
Proof.
  apply (only_connect_opens_sockets demo_env (OpSignal 0 (SigError (VError "boom"))) w_open).
  reflexivity.
Defined.

(** ** Signals on a socket wired by connect *)

Lemma deliver_found (h : nat) (s : Signal) (w : World) (sk : WebSocket) :
  sockets w !! h = Some sk ->
  deliver h s w
  = (update_socket h (set_readyState (signal_state s (readyState sk))) ;;;
     run_listeners h
       (List.filter (fun l => String.eqb (l_event l) (signal_event s)) (listeners sk))
       (signal_args s)) w.
Proof. intros H. unfold deliver. now rewrite H. Qed.

Lemma table_lookup (h : nat) (w : World) (ls : list Listener) :
  listener_tables w !! h = Some ls ->
  exists sk, sockets w !! h = Some sk /\ listeners sk = ls.
Proof.
  unfold listener_tables. intros H.
  change (List.map listeners (sockets w)) with (listeners <$> sockets w) in H.
  rewrite list_lookup_fmap in H.
  destruct (sockets w !! h) as [sk|]; [|discriminate].
  exists sk. split; [reflexivity|]. now injection H.
Qed.

Lemma alter_same_state (h : nat) (ss : list WebSocket) (sk : WebSocket) :
  ss !! h = Some sk -> alter (set_readyState (readyState sk)) h ss = ss.
Proof.
  intros H. apply list_eq. intros i. rewrite list_lookup_alter.
  case_decide; [|reflexivity]. subst i. rewrite H. simpl. now destruct sk.
Qed.

Lemma set_sockets_same (w : World) : set_sockets (sockets w) w = w.
Proof. now destruct w. Qed.

Lemma then_ret (m : M unit) (w : World) : (m ;;; ret tt) w = m w.
Proof. unfold bind, ret. destruct (m w) as [[] ?|? ?]; reflexivity. Qed.

Lemma message_listeners (f : nat) (a b : bool) :
  List.filter (fun l => String.eqb (l_event l) "message") (listeners_after f a b)
  = [ {| l_id := 4; l_event := "message"; l_once := false; l_handler := H_onMessage |} ].
Proof. destruct a, b; reflexivity. Qed.

Lemma close_listeners (f : nat) (a b : bool) :
  List.filter (fun l => String.eqb (l_event l) "close") (listeners_after f a b)
  = [ {| l_id := 2; l_event := "close"; l_once := false; l_handler := H_onClose |} ].
Proof. destruct a, b; reflexivity. Qed.

Lemma open_listeners_after (f : nat) (a b : bool) :
  List.filter (fun l => String.eqb (l_event l) "open") (listeners_after f a b)
  = if b then []
    else [ {| l_id := 1; l_event := "open"; l_once := true; l_handler := HUser f |} ].
Proof. destruct a, b; reflexivity. Qed.

Lemma error_listeners_after (f : nat) (a b : bool) :
  List.filter (fun l => String.eqb (l_event l) "error") (listeners_after f a b)
  = (if a then []
     else [ {| l_id := 0; l_event := "error"; l_once := true; l_handler := HUser f |} ])
    ++ [ {| l_id := 3; l_event := "error"; l_once := false; l_handler := H_onError |} ].
Proof. destruct a, b; reflexivity. Qed.

Lemma drop_error_registration (f : nat) (a b : bool) :
  List.filter (fun l => negb (Nat.eqb (l_id l) 0)) (listeners_after f a b)
  = listeners_after f true b.
Proof. destruct a, b; reflexivity. Qed.

Lemma drop_open_registration (f : nat) (a b : bool) :
  List.filter (fun l => negb (Nat.eqb (l_id l) 1)) (listeners_after f a b)
  = listeners_after f a true.
Proof. destruct a, b; reflexivity. Qed.

Lemma deliver_message_wired
    (h f : nat) (a b : bool) (data flags : Value) (w : World) :
  listener_tables w !! h = Some (listeners_after f a b) ->
  deliver h (SigMessage data flags) w = _onMessage data flags w.
Proof.
  intros Ht. destruct (table_lookup h w _ Ht) as (sk & Hsk & Hls).
  rewrite (deliver_found h _ w sk Hsk), Hls. simpl signal_event.
  rewrite message_listeners. simpl.
  unfold bind at 1. unfold update_socket.
  rewrite (alter_same_state h (sockets w) sk Hsk), set_sockets_same.
  unfold bind at 1. unfold ret at 1. simpl. apply then_ret.
Qed.

Lemma onMessage_world (data flags : Value) (w : World) :
  _onMessage data flags w
  = Ok tt (add_action (if valid_envelope data
                       then AEmit (get data "channel") [get data "payload"]
                       else ALog "Received message without all necessary fields" []) w).
Proof.
  unfold _onMessage. rewrite valid_envelope_test.
  destruct (valid_envelope data); reflexivity.
Qed.

Lemma onMessage_events (data flags : Value) (w : World) :
  events_of (trace (world_of (_onMessage data flags w)))
  = events_of (trace w) ++ dispatch_of data.
Proof.
  rewrite onMessage_world. simpl. rewrite events_of_app. unfold dispatch_of.
  destruct (valid_envelope data); reflexivity.
Qed.

(** X4: on a socket wired by [connect], a message signal does exactly
    what [_onMessage] does with the data, and messages are dispatched one
    by one in the order they arrive: the events emitted are those of the
    valid envelopes, in arrival order, and the invalid ones leave none. *)
Theorem messages_dispatch_in_order
    (E : Env) (h f : nat) (a b : bool) (msgs : list (Value * Value)) (w : World) :
  listener_tables w !! h = Some (listeners_after f a b) ->
  (forall data flags, deliver h (SigMessage data flags) w = _onMessage data flags w)
  /\ events_of (trace (run E (List.map (fun m => OpSignal h (SigMessage (fst m) (snd m))) msgs) w))
     = events_of (trace w) ++ List.concat (List.map (fun m => dispatch_of (fst m)) msgs).
Proof.
  intros Ht. split; [intros; now apply (deliver_message_wired h f a b)|].
  revert w Ht. induction msgs as [|[d fl] msgs IH]; intros w Ht; simpl.
  - now rewrite app_nil_r.
  - rewrite (deliver_message_wired h f a b d fl w Ht).
    rewrite IH.
    + rewrite onMessage_events. now rewrite <- app_assoc.
    + rewrite onMessage_world. exact Ht.
Qed.

Lemma two_messages_in_order :
  (forall data flags, deliver 0 (SigMessage data flags) w_open = _onMessage data flags w_open)
  /\ events_of (trace (run demo_env
     (List.map (fun m => OpSignal 0 (SigMessage (fst m) (snd m)))
        [ (msg_metrics, VUndefined); (msg_zero_payload, VUndefined); (msg_metrics, VNull) ])
     w_open))
  = events_of (trace w_open)
    ++ List.concat (List.map (fun m => dispatch_of (fst m))
         [ (msg_metrics, VUndefined); (msg_zero_payload, VUndefined); (msg_metrics, VNull) ]).
Proof.
  apply (messages_dispatch_in_order demo_env 0 7 false true). reflexivity.
Defined.

Lemma isConnected_state (h : nat) (rs : nat) (w : World) :
  _ws w = Some h ->
  isConnected (set_sockets (alter (set_readyState rs) h (sockets w)) w)
  = match sockets w !! h with Some _ => Nat.eqb rs OPEN | None => false end.
Proof.
  intros Hh. unfold isConnected. simpl. rewrite Hh, list_lookup_alter_eq.
  destruct (sockets w !! h); reflexivity.
Qed.

Lemma tables_alter_listeners (g : list Listener -> list Listener)
    (f : WebSocket -> WebSocket) (h : nat) (w : World) :
  (forall s, listeners (f s) = g (listeners s)) ->
  listener_tables (set_sockets (alter f h (sockets w)) w) = alter g h (listener_tables w).
Proof.
  intros Hf. unfold listener_tables. simpl.
  change (listeners <$> alter f h (sockets w) = alter g h (listeners <$> sockets w)).
  apply list_fmap_alter. apply Forall_forall. intros s _. apply Hf.
Qed.

Lemma tables_set_state (rs h : nat) (w : World) :
  listener_tables (set_sockets (alter (set_readyState rs) h (sockets w)) w)
  = listener_tables w.
Proof. apply (tables_ready (fun _ => rs) h w). Qed.

Lemma close_signal_world
    (h f : nat) (a b : bool) (code reason : Value) (w : World) :
  listener_tables w !! h = Some (listeners_after f a b) ->
  exists w',
    deliver h (SigClose code reason) w = Ok tt w'
    /\ trace w' = trace w ++ [AEmit (VStr "close") [code; reason]]
    /\ option_map readyState (sockets w' !! h) = Some CLOSED
    /\ (_ws w = Some h -> isConnected w' = false)
    /\ _ws w' = _ws w
    /\ listener_tables w' = listener_tables w.
Proof.
  intros Ht. destruct (table_lookup h w _ Ht) as (sk & Hsk & Hls).
  rewrite (deliver_found h _ w sk Hsk), Hls. simpl signal_event.
  rewrite close_listeners. simpl.
  unfold bind, update_socket, ret, _onClose, emit, record. simpl.
  eexists. split; [reflexivity|]. simpl.
  split; [reflexivity|]. split; [|split; [|split]].
  - rewrite list_lookup_alter_eq, Hsk. reflexivity.
  - intros Hh. unfold isConnected. simpl. rewrite Hh, list_lookup_alter_eq, Hsk. reflexivity.
  - reflexivity.
  - apply tables_set_state.
Qed.



Lemma open_signal_world (h f : nat) (a b : bool) (w : World) :
  listener_tables w !! h = Some (listeners_after f a b) ->
  exists w',
    deliver h SigOpen w = Ok tt w'
    /\ trace w' = trace w ++ (if b then [] else [ACall f []])
    /\ option_map readyState (sockets w' !! h) = Some OPEN
    /\ listener_tables w' !! h = Some (listeners_after f a true)
    /\ _ws w' = _ws w.
Proof.
  intros Ht. destruct (table_lookup h w _ Ht) as (sk & Hsk & Hls).
  rewrite (deliver_found h _ w sk Hsk), Hls. simpl signal_event.
  rewrite open_listeners_after.
  assert (Ht1 : listener_tables (set_sockets (alter (set_readyState OPEN) h (sockets w)) w) !! h
                = Some (listeners_after f a b)).
  { rewrite tables_set_state. exact Ht. }
  destruct b; simpl; unfold bind, update_socket, ret, record; simpl.
  - eexists. split; [reflexivity|]. simpl. rewrite app_nil_r.
    split; [reflexivity|]. split; [|split; [exact Ht1|reflexivity]].
    rewrite list_lookup_alter_eq, Hsk. reflexivity.
  - eexists. split; [reflexivity|]. simpl.
    split; [reflexivity|]. split; [|split; [|reflexivity]].
    + rewrite !list_lookup_alter_eq, Hsk. reflexivity.
    + change (listener_tables
                (set_sockets (alter (drop_listener 1) h
                   (sockets (set_sockets (alter (set_readyState OPEN) h (sockets w)) w)))
                   (set_sockets (alter (set_readyState OPEN) h (sockets w)) w)) !! h
              = Some (listeners_after f a true)).
      rewrite (tables_alter_listeners
                 (List.filter (fun l => negb (Nat.eqb (l_id l) 1))) (drop_listener 1))
        by reflexivity.
      rewrite list_lookup_alter_eq, Ht1. simpl. now rewrite drop_open_registration.
Qed.

(** ** The life of a connection *)

Lemma tables_connected (E : Env) (url : Value) (ls : list Listener) (w : World) :
  listener_tables (connected_world E url ls w) = listener_tables w ++ [ls].
Proof. unfold listener_tables. simpl. now rewrite List.map_app. Qed.

Lemma tables_length (w : World) : length (listener_tables w) = length (sockets w).
Proof. unfold listener_tables. apply length_map. Qed.

Lemma table_of_new_socket (E : Env) (url : Value) (f : nat) (w : World) :
  listener_tables (connected_world E url (connect_listeners f) w) !! length (sockets w)
  = Some (listeners_after f false false).
Proof.
  rewrite tables_connected, <- tables_length. now apply list_lookup_middle.
Qed.

Lemma isConnected_from (h rs : nat) (w : World) :
  _ws w = Some h ->
  option_map readyState (sockets w !! h) = Some rs ->
  isConnected w = Nat.eqb rs 1.
Proof.
  intros Hh Hrs. unfold isConnected. rewrite Hh.
  destruct (sockets w !! h) as [s|]; [|discriminate].
  simpl in Hrs. now injection Hrs as ->.
Qed.

(** X6: a transport is connected exactly between the open and the close
    signal of the socket its last [connect] made: not yet after
    [connect], connected once that socket has opened, no longer after its
    close signal. *)
Theorem connected_between_open_and_close
    (E : Env) (url code reason : Value) (f : nat) (w : World) :
  isConnected (run E [OpConnect url (VFun f)] w) = false
  /\ isConnected (run E [OpConnect url (VFun f); OpSignal (length (sockets w)) SigOpen] w) = true
  /\ isConnected (run E [OpConnect url (VFun f); OpSignal (length (sockets w)) SigOpen;
                         OpSignal (length (sockets w)) (SigClose code reason)] w) = false.
Proof.
  cbn [run run_op]. rewrite connect_function. cbn [world_of].
  pose proof (table_of_new_socket E url f w) as Ht.
  split.
  - unfold isConnected. simpl. now rewrite lookup_last.
  - destruct (open_signal_world _ _ _ _ _ Ht) as (w1 & -> & _ & Hrs & Ht1 & Hws).
    cbn [world_of].
    assert (Hh : _ws w1 = Some (length (sockets w))) by (rewrite Hws; reflexivity).
    split; [apply (isConnected_from _ _ _ Hh Hrs)|].
    destruct (close_signal_world _ _ _ _ code reason _ Ht1) as (w2 & -> & _ & _ & Hc & _).
    cbn [world_of]. apply Hc, Hh.
Qed.

(** ** The callback and the error path *)

Lemma isConnected_drop (id h : nat) (w : World) :
  isConnected (set_sockets (alter (drop_listener id) h (sockets w)) w) = isConnected w.
Proof.
  unfold isConnected. simpl. destruct (_ws w) as [h0|]; [|reflexivity].
  rewrite list_lookup_alter. case_decide; [subst h0|reflexivity].
  destruct (sockets w !! h); reflexivity.
Qed.

(** The world in which [_onError] runs when an error signal reaches a
    wired socket: the callback's one-shot registration, if still there,
    has been taken out and the callback has run. *)
Lemma error_signal_world (h f : nat) (a b : bool) (err : Value) (w : World) :
  listener_tables w !! h = Some (listeners_after f a b) ->
  exists w1,
    deliver h (SigError err) w = _onError err w1
    /\ trace w1 = trace w ++ (if a then [] else [ACall f [err]])
    /\ listener_tables w1 !! h = Some (listeners_after f true b)
    /\ isConnected w1 = isConnected w
    /\ _ws w1 = _ws w.
Proof.
  intros Ht. destruct (table_lookup h w _ Ht) as (sk & Hsk & Hls).
  rewrite (deliver_found h _ w sk Hsk), Hls. simpl signal_event.
  rewrite error_listeners_after. simpl signal_state.
  unfold bind at 1. unfold update_socket at 1.
  rewrite (alter_same_state h (sockets w) sk Hsk), set_sockets_same.
  destruct a; simpl.
  - exists w. split; [|rewrite app_nil_r; repeat split; auto].
    change ((_onError err ;;; ret tt) w = _onError err w). apply then_ret.
  - exists (add_action (ACall f [err])
              (set_sockets (alter (drop_listener 0) h (sockets w)) w)).
    split; [|simpl; split; [reflexivity|]; split; [|split; [|reflexivity]]].
    + change ((_onError err ;;; ret tt)
                (add_action (ACall f [err])
                   (set_sockets (alter (drop_listener 0) h (sockets w)) w))
              = _onError err
                  (add_action (ACall f [err])
                     (set_sockets (alter (drop_listener 0) h (sockets w)) w))).
      apply then_ret.
    + change (listener_tables (set_sockets (alter (drop_listener 0) h (sockets w)) w) !! h
              = Some (listeners_after f true b)).
      rewrite (tables_alter_listeners
                 (List.filter (fun l => negb (Nat.eqb (l_id l) 0))) (drop_listener 0))
        by reflexivity.
      rewrite list_lookup_alter_eq, Ht. simpl. now rewrite drop_error_registration.
    + apply (isConnected_drop 0 h w).
Qed.

(** X7: the callback given to [connect] is run by the first open signal
    and by the first error signal of its socket, each time only if that
    registration has not fired before, and by no later signal of the same
    kind: an open signal adds a call without arguments unless one was
    already made, an error signal a call with the error unless one was. *)
Theorem callback_fires_once_per_kind
    (h f : nat) (a b : bool) (err : Value) (w : World) :
  listener_tables w !! h = Some (listeners_after f a b) ->
  calls_of f (trace (world_of (deliver h SigOpen w)))
    = calls_of f (trace w) ++ (if b then [] else [ [] ])
  /\ listener_tables (world_of (deliver h SigOpen w)) !! h = Some (listeners_after f a true)
  /\ calls_of f (trace (world_of (deliver h (SigError err) w)))
    = calls_of f (trace w) ++ (if a then [] else [ [err] ])
  /\ listener_tables (world_of (deliver h (SigError err) w)) !! h
    = Some (listeners_after f true b).
Proof.
  intros Ht.
  destruct (open_signal_world h f a b w Ht) as (w1 & -> & Htr & _ & Ht1 & _).
  destruct (error_signal_world h f a b err w Ht) as (w2 & -> & Htr2 & Ht2 & _ & _).
  cbn [world_of]. split; [|split; [exact Ht1|split]].
  - rewrite Htr, calls_of_app. destruct b; simpl; [reflexivity|]. now rewrite Nat.eqb_refl.
  - rewrite onError_no_calls, Htr2, calls_of_app.
    destruct a; simpl; [reflexivity|]. now rewrite Nat.eqb_refl.
  - rewrite (preserves_onError listener_tables tables_trace tables_ready err w2). exact Ht2.
Qed.

Lemma callback_on_open_socket :
  calls_of 7 (trace (world_of (deliver 0 SigOpen w_open)))
    = calls_of 7 (trace w_open) ++ []
  /\ listener_tables (world_of (deliver 0 SigOpen w_open)) !! 0%nat
     = Some (listeners_after 7 false true)
  /\ calls_of 7 (trace (world_of (deliver 0 (SigError (VError "boom")) w_open)))
    = calls_of 7 (trace w_open) ++ [ [VError "boom"] ]
  /\ listener_tables (world_of (deliver 0 (SigError (VError "boom")) w_open)) !! 0%nat
     = Some (listeners_after 7 true true).
Proof.
  apply (callback_fires_once_per_kind 0 7 false true (VError "boom") w_open). reflexivity.
Defined.

Lemma isConnected_add_action (a : Action) (w : World) :
  isConnected (add_action a w) = isConnected w.
Proof. reflexivity. Qed.

(** ** Listener tables *)












(** ** Reconnecting, continued *)

Lemma reconnect_world (E : Env) (url cb : Value) (w : World) :
  exists w1 ls,
    disconnect w = Ok tt w1
    /\ world_of (reconnect E url cb w)
       = connected_world E (if is_function url then _host w else url) ls w1.
Proof.
  destruct (disconnect_returns w) as (w1 & Hd & _).
  destruct (connect_world E (if is_function url then _host w else url)
              (if is_function url then url else cb) w1) as [ls Hls].
  exists w1, ls. split; [exact Hd|].
  unfold reconnect, bind, this_host. simpl. rewrite Hd. exact Hls.
Qed.

(** X10: [reconnect(url, cb)] with an address records that address and
    opens the new socket for it, after closing the current socket with
    code 1000 if the transport was connected, and without any socket
    operation before the new socket otherwise.  The new socket becomes the
    current one and the transport is not connected until it opens. *)
Theorem reconnect_closes_then_opens (E : Env) (url cb : Value) (w : World) :
  is_function url = false ->
  _host (world_of (reconnect E url cb w)) = url
  /\ _ws (world_of (reconnect E url cb w)) = Some (length (sockets w))
  /\ option_map ws_url (sockets (world_of (reconnect E url cb w)) !! length (sockets w))
     = Some url
  /\ isConnected (world_of (reconnect E url cb w)) = false
  /\ socket_ops_of (trace (world_of (reconnect E url cb w)))
     = socket_ops_of (trace w)
       ++ match _ws w with
          | Some h => if isConnected w then [AWsClose h 1000 (VStr "Disconnecting")] else []
          | None => []
          end
       ++ [AWsNew (length (sockets w)) url].
Proof.
  intros Hurl.
  destruct (disconnect_returns w) as (w1 & Hd & _ & _ & _ & Hlen & Hops).
  destruct (reconnect_world E url cb w) as (w1' & ls & Hd' & ->).
  rewrite Hd in Hd'. injection Hd' as <-. rewrite Hurl.
  unfold connected_world, isConnected; simpl. rewrite Hlen.
  split; [reflexivity|]. split; [reflexivity|].
  rewrite <- Hlen, lookup_last. simpl.
  split; [reflexivity|]. split; [reflexivity|].
  rewrite socket_ops_of_app, Hops, <- app_assoc, Hlen. reflexivity.
Qed.

Lemma reconnect_open_transport_elsewhere :
  _host (world_of (reconnect demo_env (VStr "ws://host/y") (VFun 8) w_open)) = VStr "ws://host/y"
  /\ _ws (world_of (reconnect demo_env (VStr "ws://host/y") (VFun 8) w_open))
     = Some (length (sockets w_open))
  /\ option_map ws_url
       (sockets (world_of (reconnect demo_env (VStr "ws://host/y") (VFun 8) w_open))
          !! length (sockets w_open))
     = Some (VStr "ws://host/y")
  /\ isConnected (world_of (reconnect demo_env (VStr "ws://host/y") (VFun 8) w_open)) = false
  /\ socket_ops_of (trace (world_of (reconnect demo_env (VStr "ws://host/y") (VFun 8) w_open)))
     = socket_ops_of (trace w_open)
       ++ match _ws w_open with
          | Some h => if isConnected w_open then [AWsClose h 1000 (VStr "Disconnecting")] else []
          | None => []
          end
       ++ [AWsNew (length (sockets w_open)) (VStr "ws://host/y")].
Proof.
  apply (reconnect_closes_then_opens demo_env (VStr "ws://host/y") (VFun 8) w_open).
  reflexivity.
Defined.

(** X11: the address given to [connect] is the one a later
    [reconnect(cb)] uses, whether or not that [connect] accepted its
    callback: the second socket is opened for the same address, becomes
    the current one, and the recorded address is unchanged. *)
Theorem reconnect_after_connect_same_address
    (E : Env) (url cb cb' : Value) (f : nat) (w : World) :
  _host (run E [OpConnect url cb; OpReconnect (VFun f) cb'] w) = url
  /\ _ws (run E [OpConnect url cb; OpReconnect (VFun f) cb'] w) = Some (S (length (sockets w)))
  /\ option_map ws_url
       (sockets (run E [OpConnect url cb; OpReconnect (VFun f) cb'] w) !! S (length (sockets w)))
     = Some url.
Proof.
  cbn [run run_op].
  destruct (connect_world E url cb w) as [ls ->].
  set (wc := connected_world E url ls w).
  destruct (disconnect_returns wc) as (w1 & Hd & _ & _ & _ & Hlen & _).
  destruct (reconnect_world E (VFun f) cb' wc) as (w1' & ls' & Hd' & ->).
  rewrite Hd in Hd'. injection Hd' as <-.
  assert (Hl : length (sockets w1) = S (length (sockets w))).
  { rewrite Hlen. unfold wc. simpl. rewrite length_app. simpl. lia. }
  unfold connected_world; simpl. rewrite <- Hl.
  split; [reflexivity|]. split; [reflexivity|].
  now rewrite lookup_last.
Qed.

(** X12: [connect] does nothing to the sockets already there.  A socket
    wired by an earlier [connect] keeps its handlers when a new [connect]
    replaces it as the current socket, and a message arriving on it
    afterwards is still dispatched to subscribers. *)
Theorem superseded_socket_still_dispatches
    (E : Env) (h f : nat) (a b : bool) (url cb data flags : Value) (w : World) :
  listener_tables w !! h = Some (listeners_after f a b) ->
  _ws (run E [OpConnect url cb] w) = Some (length (sockets w))
  /\ h <> length (sockets w)
  /\ sockets (run E [OpConnect url cb] w) !! h = sockets w !! h
  /\ events_of (trace (run E [OpConnect url cb; OpSignal h (SigMessage data flags)] w))
     = events_of (trace w) ++ dispatch_of data.
Proof.
  intros Ht. cbn [run run_op].
  destruct (connect_world E url cb w) as [ls ->].
  assert (Hlt : (h < length (sockets w))%nat).
  { rewrite <- tables_length. eapply lookup_lt_Some, Ht. }
  split; [reflexivity|]. split; [lia|]. split.
  - simpl. now apply lookup_app_l.
  - rewrite (deliver_message_wired h f a b).
    + rewrite onMessage_events. simpl. rewrite events_of_app. simpl.
      now rewrite app_nil_r.
    + rewrite tables_connected, lookup_app_l; [exact Ht|].
      now rewrite tables_length.
Qed.

Lemma message_on_superseded_socket :
  _ws (run demo_env [OpConnect (VStr "ws://host/y") (VFun 8)] w_open)
    = Some (length (sockets w_open))
  /\ 0%nat <> length (sockets w_open)
  /\ sockets (run demo_env [OpConnect (VStr "ws://host/y") (VFun 8)] w_open) !! 0%nat
     = sockets w_open !! 0%nat
  /\ events_of (trace (run demo_env
        [OpConnect (VStr "ws://host/y") (VFun 8); OpSignal 0 (SigMessage msg_metrics VUndefined)]
        w_open))
     = events_of (trace w_open) ++ dispatch_of msg_metrics.
Proof.
  apply (superseded_socket_still_dispatches demo_env 0 7 false true). reflexivity.
Defined.

(** ** Outcomes of connect *)

Lemma onError_not_connected (err : Value) (w : World) :
  isConnected w = false ->
  _onError err w = Ok tt (add_action (AEmit (VStr "error") [err]) w).
Proof. intros Hc. unfold _onError. run_monad. now rewrite Hc. Qed.

(** X13: the two outcomes of a [connect].  If the new socket opens, the
    callback runs once without arguments and no event is emitted.  If it
    fails before opening, the callback runs once with the error, the error
    is also emitted as an [error] event, no close is issued (there is
    nothing open to close) and the transport is not connected.  Either way
    the only socket operation is the construction of the socket. *)
Theorem connect_outcomes (E : Env) (url err : Value) (f : nat) (w : World) :
  (calls_of f (trace (run E [OpConnect url (VFun f); OpSignal (length (sockets w)) SigOpen] w))
     = calls_of f (trace w) ++ [ [] ]
   /\ events_of (trace (run E [OpConnect url (VFun f); OpSignal (length (sockets w)) SigOpen] w))
     = events_of (trace w)
   /\ socket_ops_of
        (trace (run E [OpConnect url (VFun f); OpSignal (length (sockets w)) SigOpen] w))
     = socket_ops_of (trace w) ++ [AWsNew (length (sockets w)) url])
  /\ (calls_of f
        (trace (run E [OpConnect url (VFun f); OpSignal (length (sockets w)) (SigError err)] w))
     = calls_of f (trace w) ++ [ [err] ]
   /\ events_of
        (trace (run E [OpConnect url (VFun f); OpSignal (length (sockets w)) (SigError err)] w))
     = events_of (trace w) ++ [ (VStr "error", [err]) ]
   /\ socket_ops_of
        (trace (run E [OpConnect url (VFun f); OpSignal (length (sockets w)) (SigError err)] w))
     = socket_ops_of (trace w) ++ [AWsNew (length (sockets w)) url]
   /\ isConnected
        (run E [OpConnect url (VFun f); OpSignal (length (sockets w)) (SigError err)] w)
     = false).
Proof.
  cbn [run run_op]. rewrite connect_function. cbn [world_of].
  pose proof (table_of_new_socket E url f w) as Ht.
  assert (Hc : isConnected (connected_world E url (connect_listeners f) w) = false).
  { unfold isConnected. simpl. now rewrite lookup_last. }
  split.
  - destruct (open_signal_world _ _ _ _ _ Ht) as (w1 & -> & Htr & _).
    cbn [world_of]. rewrite Htr. simpl.
    rewrite !calls_of_app, !events_of_app, !socket_ops_of_app. simpl.
    rewrite Nat.eqb_refl, !app_nil_r. repeat split; reflexivity.
  - destruct (error_signal_world _ _ _ _ err _ Ht) as (w1 & -> & Htr & _ & Hc1 & _).
    rewrite Hc in Hc1. rewrite (onError_not_connected err w1 Hc1). cbn [world_of].
    simpl. rewrite Htr. simpl.
    rewrite !calls_of_app, !events_of_app, !socket_ops_of_app. simpl.
    rewrite Nat.eqb_refl, !app_nil_r.
    split; [reflexivity|]. split; [reflexivity|]. split; [reflexivity|].
    rewrite isConnected_add_action. exact Hc1.
Qed.

(** ** The stand-ins are the library that refuses nothing *)

Lemma permissive_connect (E : Env) (url cb : Value) :
  WithLibrary.connect permissive E url cb = connect E url cb.
Proof. reflexivity. Qed.

Lemma permissive_disconnect : WithLibrary.disconnect permissive = disconnect.
Proof. reflexivity. Qed.

Lemma permissive_reconnect (E : Env) (url cb : Value) :
  WithLibrary.reconnect permissive E url cb = reconnect E url cb.
Proof. reflexivity. Qed.

Lemma permissive_onError (err : Value) : WithLibrary._onError permissive err = _onError err.
Proof. reflexivity. Qed.

Lemma permissive_onMessage (data flags : Value) :
  WithLibrary._onMessage permissive data flags = _onMessage data flags.
Proof. reflexivity. Qed.

Lemma permissive_ping (data : Value) : WithLibrary.ping permissive data = ping data.
Proof. reflexivity. Qed.

Lemma permissive_invoke (hd : Handler) (args : list Value) :
  WithLibrary.invoke permissive hd args = invoke hd args.
Proof. destruct hd; reflexivity. Qed.

Lemma permissive_run_listeners (h : nat) (ls : list Listener) (args : list Value) :
  WithLibrary.run_listeners permissive h ls args = run_listeners h ls args.
Proof.
  induction ls as [|l ls IH]; simpl; [reflexivity|].
  now rewrite IH, permissive_invoke.
Qed.

Lemma permissive_deliver (h : nat) (s : Signal) (w : World) :
  WithLibrary.deliver permissive h s w = deliver h s w.
Proof.
  unfold WithLibrary.deliver, deliver.
  destruct (sockets w !! h) as [sk|]; [|reflexivity].
  rewrite permissive_run_listeners. now destruct s.
Qed.

(** ** Frames arrive as text *)

(** The frame a peer sends for [msg_metrics]. *)
Example metrics_frame_text :
  exists text, JSON_stringify msg_metrics = VStr text /\ valid_envelope msg_metrics = true.
Proof. eexists. split; reflexivity. Qed.

(** C1, the code on what the socket delivers: [connect] hands the socket's
    [message] signal straight to [_onMessage], and the socket delivers
    the text of the frame.  Nothing parses it: a string has no [version],
    so whatever the text says, the message is logged as incomplete and no
    event is dispatched, also for the text of an envelope that has all
    three fields. *)
Theorem frame_text_is_never_dispatched
    (text : string) (flags : Value) (w : World) :
  _onMessage (VStr text) flags w
    = Ok tt (add_action (ALog "Received message without all necessary fields" []) w)
  /\ events_of (trace (world_of (_onMessage (VStr text) flags w))) = events_of (trace w)
  /\ events_of (trace (world_of (deliver 0 (SigMessage (JSON_stringify msg_metrics) flags) w_open)))
     = events_of (trace w_open)
  /\ events_of (trace (world_of (_onMessage msg_metrics flags w_open)))
     = events_of (trace w_open) ++ [ (VStr "metrics", [VObj [("cpu", VNum 10)]]) ].
Proof.
  split; [|split; [|split]].
  - unfold _onMessage. simpl. rewrite orb_true_r. reflexivity.
  - unfold _onMessage. simpl. rewrite orb_true_r. simpl.
    rewrite events_of_app. apply app_nil_r.
  - vm_compute. reflexivity.
  - vm_compute. reflexivity.
Qed.

(** ** The forced close *)

Lemma ws_refuses_400 (error_listener : bool) :
  close_error (ws_lib error_listener) 400
  = Some (VError "first argument must be a valid error code number")
  /\ close_error (ws_lib error_listener) 1000 = None.
Proof. split; reflexivity. Qed.

(** With any library that refuses the code 400, the error handler of a
    connected transport gets as far as calling [close(400, err.message)]
    on the current socket: the call is refused, the handler ends there by
    throwing, and the [error] event is never handed to the emitter. *)
Lemma onError_close_refused (L : Library) (err e : Value) (w : World) :
  is_nullish err = false ->
  isConnected w = true ->
  close_error L 400 = Some e ->
  exists h w',
    _ws w = Some h
    /\ WithLibrary._onError L err w = Throw e w'
    /\ trace w' = trace w ++ [AWsClose h 400 (get err "message")]
    /\ events_of (trace w') = events_of (trace w).
Proof.
  intros Herr Hconn Hcode.
  destruct (isConnected_inv w Hconn) as (h & s & Hh & _ & _).
  exists h. unfold WithLibrary._onError, WithLibrary.ws_close. rewrite Hcode.
  run_monad. rewrite Hconn, Hh.
  destruct err; try discriminate; simpl;
    (eexists; split; [reflexivity|]; split; [reflexivity|]; simpl;
     split; [reflexivity|]; rewrite events_of_app; apply app_nil_r).
Qed.

(** C4, the code at the failing inputs, with [ws] as it is and an owner
    listening for [error].  Socket 0 was left behind by a second
    [connect] and socket 1 is the current, open one.  An error on socket 0
    finds the transport connected: the handler calls [close(400, 'boom')]
    on socket 1, [ws] refuses the code and the handler throws, so no
    [error] event is emitted.  An error on socket 1 itself reaches the
    handler when that socket is already closing, so the transport is not
    connected and no close is issued at all. *)
Theorem forced_close_is_refused :
  (exists w',
     WithLibrary.deliver (ws_lib true) 0 (SigError (VError "boom")) w_superseded
       = Throw (VError "first argument must be a valid error code number") w'
     /\ trace w' = trace w_superseded ++ [ACall 7 [VError "boom"]; AWsClose 1 400 (VStr "boom")]
     /\ events_of (trace w') = events_of (trace w_superseded))
  /\ (exists w',
     WithLibrary.deliver (ws_lib true) 1 (SigError (VError "boom")) w_superseded = Ok tt w'
     /\ trace w' = trace w_superseded
                   ++ [ACall 8 [VError "boom"]; AEmit (VStr "error") [VError "boom"]]
     /\ socket_ops_of (trace w') = socket_ops_of (trace w_superseded)).
Proof.
  split; eexists; (split; [vm_compute; reflexivity|]); split; vm_compute; reflexivity.
Qed.

(** ** Reconnecting with a library that can refuse *)







(** ** Keepalive with an emitter that can throw *)

(** C9, as the code has it: on a connected transport [ping] sends one ping
    frame and returns.  Otherwise the underlying operation throws (no
    handle to call, or a socket that is not open); the error is caught and
    handed to [emit('error', err)], and [ping] returns if the emitter
    takes the event and throws what the emitter throws if it does not. *)
Theorem ping_throws_only_what_emit_throws (L : Library) (data : Value) (w : World) :
  (isConnected w = true ->
     exists h w',
       _ws w = Some h
       /\ WithLibrary.ping L data w = Ok tt w'
       /\ trace w' = trace w ++
            [ ALog "Sending ping request to remote" [];
              AWsPing h (JSON_stringify data) true false ])
  /\ (isConnected w = false ->
     exists err w',
       (let* h := this_ws in ws_ping h (JSON_stringify data) true false)
         (add_action (ALog "Sending ping request to remote" []) w)
         = Throw err (add_action (ALog "Sending ping request to remote" []) w)
       /\ trace w' = trace w ++
            [ ALog "Sending ping request to remote" []; AEmit (VStr "error") [err] ]
       /\ WithLibrary.ping L data w
          = match emit_error L (VStr "error") [err] with
            | None => Ok tt w'
            | Some e => Throw e w'
            end).
Proof.
  unfold WithLibrary.ping, WithLibrary.emit, ws_ping, isConnected. run_monad.
  destruct (_ws w) as [h|]; simpl.
  - destruct (sockets w !! h) as [s|]; simpl.
    + change (Nat.eqb (readyState s) 1) with (Nat.eqb (readyState s) OPEN).
      destruct (Nat.eqb (readyState s) OPEN) eqn:Hrs; run_monad.
      * split; [|discriminate]. intros _. exists h. eexists.
        split; [reflexivity|]. split; [reflexivity|]. simpl. now rewrite <- app_assoc.
      * split; [discriminate|]. intros _. eexists. eexists.
        split; [reflexivity|].
        split; [|destruct (emit_error L (VStr "error") [VError "not opened"]); reflexivity].
        simpl. now rewrite <- app_assoc.
    + split; [discriminate|]. intros _. eexists. eexists.
      split; [reflexivity|].
      split; [|destruct (emit_error L (VStr "error") [VError "not opened"]); reflexivity].
      simpl. now rewrite <- app_assoc.
  - split; [discriminate|]. intros _. eexists. eexists.
    split; [reflexivity|].
    split; [|destruct (emit_error L (VStr "error")
                         [VError "Cannot read properties of null"]); reflexivity].
    simpl. now rewrite <- app_assoc.
Qed.

Lemma ping_open_and_closed :
  (exists h w',
     _ws w_open = Some h
     /\ WithLibrary.ping (ws_lib false) (VNum 1) w_open = Ok tt w'
     /\ trace w' = trace w_open ++
          [ ALog "Sending ping request to remote" [];
            AWsPing h (JSON_stringify (VNum 1)) true false ])
  /\ (exists err w',
     (let* h := this_ws in ws_ping h (JSON_stringify (VNum 1)) true false)
       (add_action (ALog "Sending ping request to remote" []) w_closed)
       = Throw err (add_action (ALog "Sending ping request to remote" []) w_closed)
     /\ trace w' = trace w_closed ++
          [ ALog "Sending ping request to remote" []; AEmit (VStr "error") [err] ]
     /\ WithLibrary.ping (ws_lib true) (VNum 1) w_closed
        = match emit_error (ws_lib true) (VStr "error") [err] with
          | None => Ok tt w'
          | Some e => Throw e w'
          end).
Proof.
  split.
  - apply (ping_throws_only_what_emit_throws (ws_lib false) (VNum 1) w_open). reflexivity.
  - apply (ping_throws_only_what_emit_throws (ws_lib true) (VNum 1) w_closed). reflexivity.
Defined.

(** C9, the claim as written fails: on a transport as the constructor
    leaves it, with nobody listening for [error], [ping] throws to its
    caller the error it caught. *)
Lemma ping_throws_on_new_transport :
  WithLibrary.ping (ws_lib false) (VNum 1) w_fresh
  = Throw (VError "Cannot read properties of null")
      (add_action (AEmit (VStr "error") [VError "Cannot read properties of null"])
         (add_action (ALog "Sending ping request to remote" []) w_fresh)).
Proof. vm_compute. reflexivity. Qed.

Example ping_with_error_listener :
  WithLibrary.ping (ws_lib true) (VNum 1) w_fresh
  = Ok tt
      (add_action (AEmit (VStr "error") [VError "Cannot read properties of null"])
         (add_action (ALog "Sending ping request to remote" []) w_fresh)).
Proof. vm_compute. reflexivity. Qed.
